(** * Game session engine of the quiz platform: a shallow embedding

    The Go packages [internal/game], [internal/cache], [internal/db] and
    [internal/models] are transcribed below as Rocq functions over an explicit
    world state (DynamoDB tables, Redis keys, the local WebSocket hub).  The
    first half of the file holds the definitions, the second half the lemmas
    and the theorems about them. *)

From Stdlib Require Import ZArith Lia Bool.
From Stdlib Require Import Floats.SpecFloat.
From stdpp Require Import gmap strings list fin_maps sorting.

Local Open Scope Z_scope.

(* ===================================================================== *)
(** * Part I.  Definitions                                                *)
(* ===================================================================== *)

(** ** Go numeric types *)

(** [int] and [int64] are 64-bit two's complement on every platform the
    service is built for; arithmetic wraps silently. *)
Definition wrap64 (z : Z) : Z := (z + 2 ^ 63) mod 2 ^ 64 - 2 ^ 63.

Definition int64_range (z : Z) : Prop := - 2 ^ 63 <= z < 2 ^ 63.

(** [float64] is IEEE 754 binary64.  The Standard Library's [spec_float]
    implements the arithmetic (round to nearest, ties to even) on a sign, a
    mantissa and an exponent. *)
Module F64.
Definition prec : Z := 53.
Definition emax : Z := 1024.

Definition t := spec_float.

(** [float64(n)] for an integer [n]: the nearest binary64 value. *)
Definition of_int (n : Z) : t := binary_normalize prec emax n 0 false.

Definition mul : t -> t -> t := SFmul prec emax.
Definition div : t -> t -> t := SFdiv prec emax.
Definition sub : t -> t -> t := SFsub prec emax.

(** The constants [0.5] and [1] of the source, both exact. *)
Definition half : t := S754_finite false 4503599627370496 (-53).
Definition one : t := S754_finite false 4503599627370496 (-52).

(** Magnitude of a finite value, rounded toward zero. *)
Definition trunc_abs (m : positive) (e : Z) : Z :=
  match e with
  | Z0 => Zpos m
  | Zpos _ => Z.shiftl (Zpos m) e
  | Zneg k => Z.shiftr (Zpos m) (Zpos k)
  end.

(** [int(x)]: the fractional part is discarded.  For NaN, the infinities
    and values that do not fit, Go leaves the result to the implementation;
    amd64 yields the minimum integer. *)
Definition to_int (x : t) : Z :=
  match x with
  | S754_zero _ => 0
  | S754_finite s m e =>
      let a := trunc_abs m e in
      let v := if s then - a else a in
      if (- 2 ^ 63 <=? v) && (v <? 2 ^ 63) then v else - 2 ^ 63
  | S754_infinity _ | S754_nan => - 2 ^ 63
  end.
End F64.

(** A mantissa of exactly 53 bits with an exponent in range is a normal
    number in canonical form. *)
Definition normal53 (m : positive) (e : Z) : Prop :=
  digits2_pos m = 53%positive /\ -1074 <= e <= 971.

(** The 53-bit mantissa of an integer of at most 53 bits. *)
Definition norm53 (p : positive) : positive :=
  match (53 - Zpos (digits2_pos p))%Z with
  | Zpos k => Pos.iter xO p k
  | _ => p
  end.

(** ** Score calculator ([internal/game], [CalculateScore]) *)

Definition CalculateScore (isCorrect : bool)
    (timeTakenMs timeLimitMs : Z) (basePoints : Z) : Z :=
  if negb isCorrect then 0
  else if timeLimitMs <=? 0 then basePoints
  else
    let timeTakenMs := if timeTakenMs <? 0 then 0 else timeTakenMs in
    let timeTakenMs :=
      if timeTakenMs >? timeLimitMs then timeLimitMs else timeTakenMs in
    let timeRatio := F64.div (F64.of_int timeTakenMs) (F64.of_int timeLimitMs) in
    let bonus :=
      F64.to_int (F64.mul (F64.mul (F64.of_int basePoints) F64.half)
                          (F64.sub F64.one timeRatio)) in
    wrap64 (basePoints + bonus).

(** [t] clamped into [[0, timeLimitMs]]. *)
Definition clamp_time (timeTakenMs timeLimitMs : Z) : Z :=
  Z.max 0 (Z.min timeTakenMs timeLimitMs).

(** The contract of the score calculator as the specification words it,
    in exact arithmetic: [ratio = t / L] for the clamped [t], and the award is
    [basePoints + floor (basePoints * 0.5 * (1 - ratio))], that is
    [basePoints + floor (basePoints * (L - t) / (2 * L))]. *)
Definition score_reference (isCorrect : bool)
    (timeTakenMs timeLimitMs : Z) (basePoints : Z) : Z :=
  if negb isCorrect then 0
  else if timeLimitMs <=? 0 then basePoints
  else
    let t := clamp_time timeTakenMs timeLimitMs in
    basePoints + (basePoints * (timeLimitMs - t)) / (2 * timeLimitMs).

(** The same contract with the bonus evaluated the way the code evaluates
    it: in binary64, truncated toward zero. *)
Definition bonus_binary64 (t timeLimitMs basePoints : Z) : Z :=
  F64.to_int
    (F64.mul (F64.mul (F64.of_int basePoints) F64.half)
             (F64.sub F64.one (F64.div (F64.of_int t) (F64.of_int timeLimitMs)))).

Definition score_binary64 (isCorrect : bool)
    (timeTakenMs timeLimitMs : Z) (basePoints : Z) : Z :=
  if negb isCorrect then 0
  else if timeLimitMs <=? 0 then basePoints
  else wrap64 (basePoints
               + bonus_binary64 (clamp_time timeTakenMs timeLimitMs)
                                timeLimitMs basePoints).

(** ** Data model ([internal/models]) *)

Inductive SessionStatus :=
  | SessionStatusLobby
  | SessionStatusActive
  | SessionStatusFinished.

Inductive PlayerRole :=
  | PlayerRoleHost
  | PlayerRolePlayer.

#[global] Instance SessionStatus_eq_dec : EqDecision SessionStatus.
Proof. solve_decision. Defined.

#[global] Instance PlayerRole_eq_dec : EqDecision PlayerRole.
Proof. solve_decision. Defined.

(** Each Go struct is a record in a module of its own, so that the fields
    keep their source names ([Question.CorrectOptionID], [Player.UserID]).
    Timestamps are seconds on an integer clock. *)

Module Option.
Record t := mk { ID : string; Text : string }.
End Option.

Module Question.
Record t := mk {
  QuestionID : string;
  Text : string;
  Options : list Option.t;
  CorrectOptionID : string;
  TimeLimitSeconds : Z;
  Points : Z
}.
End Question.

Module Quiz.
Record t := mk {
  QuizID : string;
  HostUserID : string;
  Title : string;
  Description : string;
  Questions : list Question.t;
  CreatedAt : Z;
  UpdatedAt : Z
}.
End Quiz.

Module Session.
Record t := mk {
  SessionID : string;
  PIN : string;
  QuizID : string;
  HostUserID : string;
  Status : SessionStatus;
  CurrentQuestionIndex : Z;
  StartedAt : option Z;
  EndedAt : option Z;
  CreatedAt : Z
}.
End Session.

Module Player.
Record t := mk {
  SessionID : string;
  ConnectionID : string;
  UserID : string;
  Nickname : string;
  Role : PlayerRole;
  ConnectedAt : Z;
  TTL : Z
}.
End Player.

(** Redis keeps scores as doubles and [PlayerScore.Score] is a [float64];
    every score the engine writes is an integer (zero at join, the points of
    an answer afterwards), so the model keeps them in [Z]. *)
Module PlayerScore.
Record t := mk {
  UserID : string;
  Nickname : string;
  Score : Z;
  Rank : Z
}.
End PlayerScore.

Module Answer.
Record t := mk {
  SessionID : string;
  UserIDQuestionID : string;
  QuestionID : string;
  UserID : string;
  SelectedOptionID : string;
  IsCorrect : bool;
  TimeTakenMs : Z;
  PointsEarned : Z;
  AnsweredAt : Z
}.
End Answer.

(** *** Inbound messages ([ws_event.go]) *)

Module JoinSessionPayload.
Record t := mk { SessionID : string; Nickname : string }.
End JoinSessionPayload.

Module SubmitAnswerPayload.
Record t := mk {
  QuestionID : string;
  SelectedOptionID : string;
  TimeTakenMs : Z
}.
End SubmitAnswerPayload.

Module StartGamePayload.
Record t := mk { SessionID : string }.
End StartGamePayload.

Module NextQuestionPayload.
Record t := mk { SessionID : string }.
End NextQuestionPayload.

Module EndGamePayload.
Record t := mk { SessionID : string }.
End EndGamePayload.

(** The envelope [WSInbound] after decoding: the action selects the payload
    type. *)
Inductive WSInbound :=
  | InJoinSession (p : JoinSessionPayload.t)
  | InSubmitAnswer (p : SubmitAnswerPayload.t)
  | InStartGame (p : StartGamePayload.t)
  | InNextQuestion (p : NextQuestionPayload.t)
  | InEndGame (p : EndGamePayload.t)
  | InOther (action : string).

(** *** Outbound messages *)

(** [WSOutbound.Payload] is an [interface{}]; the engine stores one of these
    structs in it. *)
Inductive Payload :=
  | PlayerJoinedPayload (Nickname : string) (PlayerCount : Z)
  | GameStartedPayload (TotalQuestions : Z)
  | QuestionPayload (QuestionIndex TotalQuestions : Z) (Text : string)
      (Options : list Option.t) (TimeLimitMs Points : Z)
  | AnswerResultPayload (IsCorrect : bool) (PointsEarned TotalScore Rank : Z)
      (CorrectOption : string)
  | QuestionEndedPayload (CorrectOption : string)
      (Leaderboard : list PlayerScore.t)
  | LeaderboardUpdatePayload (Leaderboard : list PlayerScore.t)
  | GameOverPayload (FinalLeaderboard : list PlayerScore.t)
  | ErrorPayload (Code Message : string).

Module WSOutbound.
Record t := mk { Typ : string; Payload : Payload }.
End WSOutbound.

Definition WSTypePlayerJoined : string := "player_joined".
Definition WSTypeGameStarted : string := "game_started".
Definition WSTypeQuestion : string := "question".
Definition WSTypeAnswerResult : string := "answer_result".
Definition WSTypeQuestionEnded : string := "question_ended".
Definition WSTypeLeaderboardUpdate : string := "leaderboard_update".
Definition WSTypeGameOver : string := "game_over".
Definition WSTypeError : string := "error".

(** ** JSON encoding of outbound messages

    [json.Marshal] writes a struct as an object whose member names are the
    [json] tags of the fields, in declaration order.  The model keeps the
    document tree. *)

#[local] Unset Elimination Schemes.
Inductive json :=
  | JNull
  | JBool (b : bool)
  | JNum (n : Z)
  | JStr (s : string)
  | JArr (items : list json)
  | JObj (members : list (string * json)).
#[local] Set Elimination Schemes.

Definition marshal_Option (o : Option.t) : json :=
  JObj [("id", JStr (Option.ID o)); ("text", JStr (Option.Text o))].

Definition marshal_PlayerScore (p : PlayerScore.t) : json :=
  JObj [("userId", JStr (PlayerScore.UserID p));
        ("nickname", JStr (PlayerScore.Nickname p));
        ("score", JNum (PlayerScore.Score p));
        ("rank", JNum (PlayerScore.Rank p))].

Definition marshal_Payload (p : Payload) : json :=
  match p with
  | PlayerJoinedPayload nickname playerCount =>
      JObj [("nickname", JStr nickname); ("playerCount", JNum playerCount)]
  | GameStartedPayload totalQuestions =>
      JObj [("totalQuestions", JNum totalQuestions)]
  | QuestionPayload questionIndex totalQuestions text options timeLimitMs points =>
      JObj [("questionIndex", JNum questionIndex);
            ("totalQuestions", JNum totalQuestions);
            ("text", JStr text);
            ("options", JArr (map marshal_Option options));
            ("timeLimitMs", JNum timeLimitMs);
            ("points", JNum points)]
  | AnswerResultPayload isCorrect pointsEarned totalScore rank correctOption =>
      JObj [("isCorrect", JBool isCorrect);
            ("pointsEarned", JNum pointsEarned);
            ("totalScore", JNum totalScore);
            ("rank", JNum rank);
            ("correctOptionId", JStr correctOption)]
  | QuestionEndedPayload correctOption leaderboard =>
      JObj [("correctOptionId", JStr correctOption);
            ("leaderboard", JArr (map marshal_PlayerScore leaderboard))]
  | LeaderboardUpdatePayload leaderboard =>
      JObj [("leaderboard", JArr (map marshal_PlayerScore leaderboard))]
  | GameOverPayload finalLeaderboard =>
      JObj [("finalLeaderboard", JArr (map marshal_PlayerScore finalLeaderboard))]
  | ErrorPayload code message =>
      JObj [("code", JStr code); ("message", JStr message)]
  end.

Definition marshal (m : WSOutbound.t) : json :=
  JObj [("type", JStr (WSOutbound.Typ m));
        ("payload", marshal_Payload (WSOutbound.Payload m))].

(** Whether a document has a member named [k] at any depth. *)
Fixpoint has_member (k : string) (j : json) : bool :=
  match j with
  | JArr items => existsb (has_member k) items
  | JObj members =>
      existsb (fun kv => String.eqb (fst kv) k || has_member k (snd kv)) members
  | _ => false
  end.

(** ** The world the engine runs in

    The engine holds handles on three collaborators: DynamoDB (four tables),
    Redis (a sorted set and a hash per session) and, in local mode, the
    in-process WebSocket hub.  The model keeps their contents in one record
    and threads it through every call. *)

Module Socket.
(** A gorilla connection as the hub sees it: [WriteMessage] either
    succeeds or returns the error recorded here (a closed peer). *)
Record t := mk { WriteErr : option string }.
End Socket.

Module Connection.
Record t := mk { ID : string; SessionID : string; Conn : Socket.t }.
End Connection.

Module Hub.
Record t := mk {
  connections : gmap string Connection.t;
  sessions : gmap string (gset string)
}.
End Hub.

Record World := mkWorld {
  (** DynamoDB: quizzes by [quizId], sessions by [sessionId], connections by
      ([sessionId], [connectionId]), answers by ([sessionId],
      [userIdQuestionId]). *)
  QuizzesTable : gmap string Quiz.t;
  SessionsTable : gmap string Session.t;
  ConnectionsTable : gmap (string * string) Player.t;
  AnswersTable : gmap (string * string) Answer.t;
  (** Redis: the sorted set [leaderboard:<session>] and the hash
      [nickname:<session>], indexed here by the session. *)
  Leaderboards : gmap string (gmap string Z);
  Nicknames : gmap string (gmap string string);
  (** The broadcaster: [Env] and the hub, [None] when no hub was set. *)
  Env : string;
  TheHub : option Hub.t;
  (** Observations: the calls of [Broadcaster.BroadcastToSession] in order
      (the debug line at its head), the frames written to sockets, and the
      background clean-ups spawned by [endGame]. *)
  Broadcasts : list (string * WSOutbound.t);
  Wire : list (string * json);
  Cleanups : list string
}.

Definition set_SessionsTable (f : gmap string Session.t -> gmap string Session.t)
    (w : World) : World :=
  mkWorld (QuizzesTable w) (f (SessionsTable w)) (ConnectionsTable w)
    (AnswersTable w) (Leaderboards w) (Nicknames w) (Env w) (TheHub w)
    (Broadcasts w) (Wire w) (Cleanups w).

Definition set_ConnectionsTable
    (f : gmap (string * string) Player.t -> gmap (string * string) Player.t)
    (w : World) : World :=
  mkWorld (QuizzesTable w) (SessionsTable w) (f (ConnectionsTable w))
    (AnswersTable w) (Leaderboards w) (Nicknames w) (Env w) (TheHub w)
    (Broadcasts w) (Wire w) (Cleanups w).

Definition set_AnswersTable
    (f : gmap (string * string) Answer.t -> gmap (string * string) Answer.t)
    (w : World) : World :=
  mkWorld (QuizzesTable w) (SessionsTable w) (ConnectionsTable w)
    (f (AnswersTable w)) (Leaderboards w) (Nicknames w) (Env w) (TheHub w)
    (Broadcasts w) (Wire w) (Cleanups w).

Definition set_Leaderboards
    (f : gmap string (gmap string Z) -> gmap string (gmap string Z))
    (w : World) : World :=
  mkWorld (QuizzesTable w) (SessionsTable w) (ConnectionsTable w)
    (AnswersTable w) (f (Leaderboards w)) (Nicknames w) (Env w) (TheHub w)
    (Broadcasts w) (Wire w) (Cleanups w).

Definition set_Nicknames
    (f : gmap string (gmap string string) -> gmap string (gmap string string))
    (w : World) : World :=
  mkWorld (QuizzesTable w) (SessionsTable w) (ConnectionsTable w)
    (AnswersTable w) (Leaderboards w) (f (Nicknames w)) (Env w) (TheHub w)
    (Broadcasts w) (Wire w) (Cleanups w).

Definition set_Broadcasts
    (f : list (string * WSOutbound.t) -> list (string * WSOutbound.t))
    (w : World) : World :=
  mkWorld (QuizzesTable w) (SessionsTable w) (ConnectionsTable w)
    (AnswersTable w) (Leaderboards w) (Nicknames w) (Env w) (TheHub w)
    (f (Broadcasts w)) (Wire w) (Cleanups w).

Definition set_Wire (f : list (string * json) -> list (string * json))
    (w : World) : World :=
  mkWorld (QuizzesTable w) (SessionsTable w) (ConnectionsTable w)
    (AnswersTable w) (Leaderboards w) (Nicknames w) (Env w) (TheHub w)
    (Broadcasts w) (f (Wire w)) (Cleanups w).

Definition set_Cleanups (f : list string -> list string) (w : World) : World :=
  mkWorld (QuizzesTable w) (SessionsTable w) (ConnectionsTable w)
    (AnswersTable w) (Leaderboards w) (Nicknames w) (Env w) (TheHub w)
    (Broadcasts w) (Wire w) (f (Cleanups w)).

(** ** Calls: state, errors and panics

    A Go call on the world either returns a value, returns a non-nil
    [error] (its message), or panics.  The stores themselves are taken to be
    reachable: the branches of the source that only forward a transport
    failure of DynamoDB or Redis have no counterpart here. *)

Inductive panic :=
  | IndexOutOfRange
  | NilDereference
  | SliceOutOfRange.

Inductive res (A : Type) :=
  | Ret (a : A)
  | Err (e : string)
  | Panic (p : panic).
Arguments Ret {A} a.
Arguments Err {A} e.
Arguments Panic {A} p.

Definition M (A : Type) : Type := World -> World * res A.

#[global] Instance M_ret : MRet M := fun A a w => (w, Ret a).

#[global] Instance M_bind : MBind M := fun A B f m w =>
  match m w with
  | (w', Ret a) => f a w'
  | (w', Err e) => (w', Err e)
  | (w', Panic p) => (w', Panic p)
  end.

Definition fail {A} (e : string) : M A := fun w => (w, Err e).
Definition throw {A} (p : panic) : M A := fun w => (w, Panic p).
Definition gets {A} (f : World -> A) : M A := fun w => (w, Ret (f w)).
Definition modify (f : World -> World) : M unit := fun w => (f w, Ret tt).

(** [err := f(...)]: the error of a call as a value ([None] is [nil]). *)
Definition try {A} (m : M A) : M (option string) := fun w =>
  match m w with
  | (w', Ret _) => (w', Ret None)
  | (w', Err e) => (w', Ret (Some e))
  | (w', Panic p) => (w', Panic p)
  end.

(** [x, _ := f(...)]: the error is dropped and the value that came with it
    is used. *)
Definition dropping_err {A} (onError : A) (m : M A) : M A := fun w =>
  match m w with
  | (w', Err _) => (w', Ret onError)
  | r => r
  end.

(** [fmt.Errorf("<prefix>: %w", err)] on the error path of a call. *)
Definition wrapping {A} (prefix : string) (m : M A) : M A := fun w =>
  match m w with
  | (w', Err e) => (w', Err (prefix +:+ ": " +:+ e))
  | r => r
  end.

(** A [for ... range] loop whose body may fail, with an accumulator. *)
Fixpoint foldM {A B} (f : B -> A -> M B) (acc : B) (l : list A) : M B :=
  match l with
  | [] => mret acc
  | x :: l => acc' ← f acc x; foldM f acc' l
  end.

(** [xs[i]] on a slice: a panic when the index is out of range. *)
Definition index {A} (l : list A) (i : Z) : option A :=
  if i <? 0 then None else l !! Z.to_nat i.

(** [s[:hi]] on a string: a panic when [hi] exceeds the length. *)
Definition slice_to (s : string) (hi : nat) : option string :=
  if (hi <=? String.length s)%nat then Some (String.substring 0 hi s) else None.

(** ** Durable store ([internal/db]) *)

Definition GetQuiz (quizID : string) : M (option Quiz.t) :=
  gets (fun w => QuizzesTable w !! quizID).

Definition GetSession (sessionID : string) : M (option Session.t) :=
  gets (fun w => SessionsTable w !! sessionID).

(** [UpdateItem] with [SET #status = :status, currentQuestionIndex = :idx]
    and the timestamp chosen by the new status.  The request carries no
    [ConditionExpression]; on a missing key DynamoDB creates the item. *)
Definition UpdateSessionStatus (now : Z) (sessionID : string)
    (status : SessionStatus) (questionIndex : Z) : M unit :=
  modify (set_SessionsTable (fun tbl =>
    let item :=
      default (Session.mk sessionID "" "" "" status questionIndex None None 0)
              (tbl !! sessionID) in
    <[sessionID :=
        Session.mk (Session.SessionID item) (Session.PIN item)
          (Session.QuizID item) (Session.HostUserID item)
          status questionIndex
          (if decide (status = SessionStatusActive) then Some now
           else Session.StartedAt item)
          (if decide (status = SessionStatusActive) then Session.EndedAt item
           else if decide (status = SessionStatusFinished) then Some now
           else Session.EndedAt item)
          (Session.CreatedAt item)]> tbl)).

(** [PutItem] on the connections table; the TTL is 24 hours from now. *)
Definition PutConnection (now : Z) (player : Player.t) : M unit :=
  modify (set_ConnectionsTable (fun tbl =>
    <[(Player.SessionID player, Player.ConnectionID player) :=
        Player.mk (Player.SessionID player) (Player.ConnectionID player)
          (Player.UserID player) (Player.Nickname player) (Player.Role player)
          (Player.ConnectedAt player) (now + 24 * 3600)]> tbl)).

Definition DeleteConnection (sessionID connectionID : string) : M unit :=
  modify (set_ConnectionsTable (fun tbl => delete (sessionID, connectionID) tbl)).

(** Query on the partition key; DynamoDB returns the items by sort key, the
    model in the order of the map. *)
Definition GetConnectionsBySession (sessionID : string) : M (list Player.t) :=
  gets (fun w =>
    (filter (fun kv : (string * string) * Player.t => kv.1.1 = sessionID)
            (map_to_list (ConnectionsTable w))).*2).

Definition GetPlayerCountBySession (sessionID : string) : M Z :=
  players ← GetConnectionsBySession sessionID;
  mret (Z.of_nat (length
          (filter (fun p => Player.Role p = PlayerRolePlayer) players))).

(** Query on the index [connectionId-index] with [Limit 1]. *)
Definition GetSessionByConnectionID (connectionID : string) : M Player.t :=
  fun w =>
    match list_find (fun kv : (string * string) * Player.t => kv.1.2 = connectionID)
                    (map_to_list (ConnectionsTable w)) with
    | Some (_, (_, player)) => (w, Ret player)
    | None => (w, Err ("connection " +:+ connectionID +:+ " not found"))
    end.

Definition compositeKey (userID questionID : string) : string :=
  userID +:+ "#" +:+ questionID.

(** [PutItem] on the answers table, again without a condition. *)
Definition PutAnswer (answer : Answer.t) : M unit :=
  modify (set_AnswersTable (fun tbl =>
    <[(Answer.SessionID answer, Answer.UserIDQuestionID answer) := answer]> tbl)).

Definition GetAnswer (sessionID userID questionID : string) : M (option Answer.t) :=
  gets (fun w => AnswersTable w !! (sessionID, compositeKey userID questionID)).

(** ** Leaderboard store ([internal/cache]) *)

Definition zset (w : World) (sessionID : string) : gmap string Z :=
  default ∅ (Leaderboards w !! sessionID).

(** [ZADD]. *)
Definition UpsertScore (sessionID userID : string) (score : Z) : M unit :=
  modify (fun w =>
    set_Leaderboards (insert sessionID (<[userID := score]> (zset w sessionID))) w).

(** [ZINCRBY]: one atomic addition; an absent member starts from zero. *)
Definition IncrementScore (sessionID userID : string) (delta : Z) : M unit :=
  modify (fun w =>
    set_Leaderboards
      (insert sessionID
         (<[userID := default 0 (zset w sessionID !! userID) + delta]>
            (zset w sessionID))) w).

(** [HSET]. *)
Definition SetNickname (sessionID userID nickname : string) : M unit :=
  modify (fun w =>
    set_Nicknames
      (insert sessionID
         (<[userID := nickname]> (default ∅ (Nicknames w !! sessionID)))) w).

(** Redis orders a sorted set by score and, among equal scores, by member;
    the [ZREV] commands read it backwards. *)
Definition zrev_before (a b : string * Z) : Prop :=
  b.2 < a.2 \/ (a.2 = b.2 /\ String.leb b.1 a.1 = true).

#[global] Instance zrev_before_dec a b : Decision (zrev_before a b).
Proof. unfold zrev_before. apply _. Defined.

Definition zrev_all (z : gmap string Z) : list (string * Z) :=
  merge_sort zrev_before (map_to_list z).

(** [ZREVRANGE key start stop WITHSCORES], with Redis's treatment of
    negative and overlong indexes. *)
Definition ZRevRangeWithScores (z : gmap string Z) (start stop : Z)
    : list (string * Z) :=
  let l := zrev_all z in
  let len := Z.of_nat (length l) in
  let start := if start <? 0 then Z.max 0 (len + start) else start in
  let stop := if stop <? 0 then len + stop else stop in
  let stop := Z.min stop (len - 1) in
  if stop <? start then []
  else take (Z.to_nat (stop - start + 1)) (drop (Z.to_nat start) l).

(** The loop of [GetTopN] from position [i] on. *)
Fixpoint fill_scores (nicknames : gmap string string) (i : Z)
    (results : list (string * Z)) : res (list PlayerScore.t) :=
  match results with
  | [] => Ret []
  | (userID, score) :: rest =>
      let nickname := default "" (nicknames !! userID) in
      match (if decide (nickname = "") then slice_to userID 8
             else Some nickname) with
      | None => Panic SliceOutOfRange
      | Some nickname =>
          match fill_scores nicknames (i + 1) rest with
          | Ret scores =>
              Ret (PlayerScore.mk userID nickname score (i + 1) :: scores)
          | r => r
          end
      end
  end.

Definition GetTopN (sessionID : string) (n : Z) : M (list PlayerScore.t) :=
  fun w =>
    let results := ZRevRangeWithScores (zset w sessionID) 0 (n - 1) in
    let nicknames := default ∅ (Nicknames w !! sessionID) in
    (w, fill_scores nicknames 0 results).

(** [ZREVRANK]; the pair is the value and the error of the Go function. *)
Definition GetPlayerRank (sessionID userID : string) : M (Z * option string) :=
  gets (fun w =>
    match list_find (fun kv : string * Z => kv.1 = userID)
                    (zrev_all (zset w sessionID)) with
    | Some (rank, _) => (Z.of_nat rank + 1, None)
    | None => (-1, Some ("player " +:+ userID +:+ " not found in leaderboard"))
    end).

(** [ZSCORE]; an absent member reads as zero. *)
Definition GetPlayerScore (sessionID userID : string) : M Z :=
  gets (fun w => default 0 (zset w sessionID !! userID)).

Definition DeleteSession (sessionID : string) : M unit :=
  modify (fun w =>
    set_Nicknames (delete sessionID) (set_Leaderboards (delete sessionID) w)).

(** ** Broadcaster and local hub ([internal/game], broadcast.go) *)

(** [Hub.SendToConnection]. *)
Definition Hub_SendToConnection (h : Hub.t) (connectionID : string)
    (data : json) : M unit :=
  match Hub.connections h !! connectionID with
  | None => fail ("connection " +:+ connectionID +:+ " not found in hub")
  | Some conn =>
      match Socket.WriteErr (Connection.Conn conn) with
      | Some e => fail e
      | None => modify (set_Wire (fun frames => frames ++ [(connectionID, data)]))
      end
  end.

(** [Hub.BroadcastToSession]: the identifiers are copied out of the set (Go
    ranges over the map in no fixed order; the model takes the order of
    [elements]), every one is tried, and the last error is returned. *)
Definition Hub_BroadcastToSession (h : Hub.t) (sessionID : string)
    (data : json) : M unit :=
  match Hub.sessions h !! sessionID with
  | None => mret tt
  | Some connIDs =>
      lastErr ← foldM (fun lastErr id =>
                   err ← try (Hub_SendToConnection h id data);
                   mret (match err with Some e => Some e | None => lastErr end))
                 None (elements connIDs);
      match lastErr with
      | Some e => fail e
      | None => mret tt
      end
  end.

(** [b.Env == "local" && b.Hub != nil] *)
Definition local_hub (w : World) : option Hub.t :=
  if decide (Env w = "local") then TheHub w else None.

(** [Broadcaster.SendToConnection]; outside local mode the delivery is not
    implemented: a warning is logged and [nil] returned. *)
Definition SendToConnection (connectionID : string) (payload : WSOutbound.t)
    : M unit :=
  let data := marshal payload in
  hub ← gets local_hub;
  match hub with
  | Some h => Hub_SendToConnection h connectionID data
  | None => mret tt
  end.

(** [Broadcaster.BroadcastToSession].  In the production branch the sends
    run in one goroutine per connection and are awaited; they touch disjoint
    keys, so the model runs them one after the other. *)
Definition BroadcastToSession (sessionID : string) (payload : WSOutbound.t)
    : M unit :=
  modify (set_Broadcasts (fun calls => calls ++ [(sessionID, payload)]));;
  let data := marshal payload in
  hub ← gets local_hub;
  match hub with
  | Some h => Hub_BroadcastToSession h sessionID data
  | None =>
      connections ← GetConnectionsBySession sessionID;
      foldM (fun (_ : unit) conn =>
               sendErr ← try (SendToConnection (Player.ConnectionID conn) payload);
               match sendErr with
               | Some _ => DeleteConnection sessionID (Player.ConnectionID conn)
               | None => mret tt
               end)
            tt connections
  end.

(** ** Game engine ([internal/game], engine.go) *)

Module Claims.
Record t := mk {
  UserID : string;
  Email : string;
  Username : string;
  Role : string
}.
End Claims.

(** The request context as far as the engine reads it: the value stored
    under the key [claimsKey("userClaims")]. *)
Module Context.
Record t := mk { userClaims : option Claims.t }.
End Context.

Definition getClaimsFromContext (ctx : Context.t) : option Claims.t :=
  Context.userClaims ctx.

Definition HandleJoinSession (ctx : Context.t) (now : Z) (connectionID : string)
    (payload : JoinSessionPayload.t) : M unit :=
  let sessionID := JoinSessionPayload.SessionID payload in
  let nickname := JoinSessionPayload.Nickname payload in
  if decide (String.length nickname = 0%nat \/ (20 < String.length nickname)%nat)
  then fail "nickname must be between 1 and 20 characters"
  else
    session ← GetSession sessionID;
    match session with
    | None => fail "session not found"
    | Some session =>
        if decide (Session.Status session <> SessionStatusLobby)
        then fail "game already started"
        else
          count ← GetPlayerCountBySession sessionID;
          if decide (2000 <= count)
          then fail "session is full (max 2000 players)"
          else
            let userID :=
              match getClaimsFromContext ctx with
              | Some claims => Claims.UserID claims
              | None => "anonymous"
              end in
            let player :=
              Player.mk sessionID connectionID userID nickname
                PlayerRolePlayer now 0 in
            PutConnection now player;;
            UpsertScore sessionID userID 0;;
            SetNickname sessionID userID nickname;;
            let newCount := wrap64 (count + 1) in
            BroadcastToSession sessionID
              (WSOutbound.mk WSTypePlayerJoined
                 (PlayerJoinedPayload nickname newCount))
    end.

Definition sendQuestion (sessionID : string) (quiz : Quiz.t) (idx : Z)
    : M unit :=
  match index (Quiz.Questions quiz) idx with
  | None => throw IndexOutOfRange
  | Some q =>
      BroadcastToSession sessionID
        (WSOutbound.mk WSTypeQuestion
           (QuestionPayload idx
              (Z.of_nat (length (Quiz.Questions quiz)))
              (Question.Text q)
              (Question.Options q)
              (wrap64 (Question.TimeLimitSeconds q * 1000))
              (Question.Points q)))
  end.

(** [HandleStartGame] up to its last read: the session, the status check,
    the role check and the quiz, in the order of the source. *)
Definition startGame_check (connectionID : string)
    (payload : StartGamePayload.t) : M Quiz.t :=
  session ← GetSession (StartGamePayload.SessionID payload);
  match session with
  | None => fail "session not found"
  | Some session =>
      if decide (Session.Status session <> SessionStatusLobby)
      then fail "game already started"
      else
        conn ← wrapping "failed to verify host"
                 (GetSessionByConnectionID connectionID);
        if decide (Player.Role conn <> PlayerRoleHost)
        then fail "only the host can start the game"
        else
          quiz ← GetQuiz (Session.QuizID session);
          match quiz with
          | None => fail "quiz not found"
          | Some quiz => mret quiz
          end
  end.

(** ... and from its first write on. *)
Definition startGame_commit (now : Z) (payload : StartGamePayload.t)
    (quiz : Quiz.t) : M unit :=
  let sessionID := StartGamePayload.SessionID payload in
  UpdateSessionStatus now sessionID SessionStatusActive 0;;
  BroadcastToSession sessionID
    (WSOutbound.mk WSTypeGameStarted
       (GameStartedPayload (Z.of_nat (length (Quiz.Questions quiz)))));;
  sendQuestion sessionID quiz 0.

Definition HandleStartGame (now : Z) (connectionID : string)
    (payload : StartGamePayload.t) : M unit :=
  quiz ← startGame_check connectionID payload;
  startGame_commit now payload quiz.

(** [HandleSubmitAnswer] up to its last read: the connection, the session,
    the duplicate check, the quiz and the question. *)
Definition submitAnswer_check (connectionID : string)
    (payload : SubmitAnswerPayload.t) : M (Player.t * Question.t) :=
  conn ← wrapping "failed to find connection"
           (GetSessionByConnectionID connectionID);
  session ← GetSession (Player.SessionID conn);
  match session with
  | None => fail "game is not active"
  | Some session =>
      if decide (Session.Status session <> SessionStatusActive)
      then fail "game is not active"
      else
        existing ← GetAnswer (Player.SessionID conn) (Player.UserID conn)
                     (SubmitAnswerPayload.QuestionID payload);
        match existing with
        | Some _ => fail "already answered this question"
        | None =>
            quiz ← GetQuiz (Session.QuizID session);
            match quiz with
            | None => throw NilDereference
            | Some quiz =>
                match list_find
                        (fun q => Question.QuestionID q
                                  = SubmitAnswerPayload.QuestionID payload)
                        (Quiz.Questions quiz) with
                | None => fail "question not found"
                | Some (_, question) => mret (conn, question)
                end
            end
        end
  end.

(** ... and from the score computation on: the answer is stored, the
    leaderboard incremented, and the result sent to the caller alone. *)
Definition submitAnswer_commit (now : Z) (connectionID : string)
    (payload : SubmitAnswerPayload.t) (conn : Player.t) (question : Question.t)
    : M unit :=
  let isCorrect :=
    bool_decide (SubmitAnswerPayload.SelectedOptionID payload
                 = Question.CorrectOptionID question) in
  let timeLimitMs := wrap64 (Question.TimeLimitSeconds question * 1000) in
  let pointsEarned :=
    CalculateScore isCorrect (SubmitAnswerPayload.TimeTakenMs payload)
      timeLimitMs (Question.Points question) in
  let answer :=
    Answer.mk (Player.SessionID conn)
      (Player.UserID conn +:+ "#" +:+ SubmitAnswerPayload.QuestionID payload)
      (SubmitAnswerPayload.QuestionID payload)
      (Player.UserID conn)
      (SubmitAnswerPayload.SelectedOptionID payload)
      isCorrect
      (SubmitAnswerPayload.TimeTakenMs payload)
      pointsEarned
      now in
  PutAnswer answer;;
  (if decide (0 < pointsEarned)
   then IncrementScore (Player.SessionID conn) (Player.UserID conn) pointsEarned
   else mret tt);;
  rank ← GetPlayerRank (Player.SessionID conn) (Player.UserID conn);
  totalScore ← GetPlayerScore (Player.SessionID conn) (Player.UserID conn);
  SendToConnection connectionID
    (WSOutbound.mk WSTypeAnswerResult
       (AnswerResultPayload isCorrect pointsEarned totalScore rank.1
          (Question.CorrectOptionID question))).

Definition HandleSubmitAnswer (now : Z) (connectionID : string)
    (payload : SubmitAnswerPayload.t) : M unit :=
  '(conn, question) ← submitAnswer_check connectionID payload;
  submitAnswer_commit now connectionID payload conn question.

Definition endGame (now : Z) (sessionID : string) : M unit :=
  UpdateSessionStatus now sessionID SessionStatusFinished (-1);;
  leaderboard ← dropping_err [] (GetTopN sessionID 100);
  BroadcastToSession sessionID
    (WSOutbound.mk WSTypeGameOver (GameOverPayload leaderboard));;
  (* go func() { _ = e.Cache.DeleteSession(...) }() *)
  modify (set_Cleanups (fun tasks => tasks ++ [sessionID])).

Definition HandleNextQuestion (now : Z) (connectionID : string)
    (payload : NextQuestionPayload.t) : M unit :=
  let sessionID := NextQuestionPayload.SessionID payload in
  conn ← wrapping "failed to verify host"
           (GetSessionByConnectionID connectionID);
  if decide (Player.Role conn <> PlayerRoleHost)
  then fail "only the host can advance questions"
  else
    session ← GetSession sessionID;
    match session with
    | None => throw NilDereference
    | Some session =>
        quiz ← GetQuiz (Session.QuizID session);
        let nextIndex := wrap64 (Session.CurrentQuestionIndex session + 1) in
        leaderboard ← dropping_err [] (GetTopN sessionID 10);
        match quiz with
        | None => throw NilDereference
        | Some quiz =>
            match index (Quiz.Questions quiz)
                        (Session.CurrentQuestionIndex session) with
            | None => throw IndexOutOfRange
            | Some currentQuestion =>
                _ ← try (BroadcastToSession sessionID
                           (WSOutbound.mk WSTypeQuestionEnded
                              (QuestionEndedPayload
                                 (Question.CorrectOptionID currentQuestion)
                                 leaderboard)));
                if decide (Z.of_nat (length (Quiz.Questions quiz)) <= nextIndex)
                then endGame now sessionID
                else
                  UpdateSessionStatus now sessionID SessionStatusActive nextIndex;;
                  sendQuestion sessionID quiz nextIndex
            end
        end
    end.

Definition HandleEndGame (now : Z) (connectionID : string)
    (payload : EndGamePayload.t) : M unit :=
  conn ← wrapping "failed to verify host"
           (GetSessionByConnectionID connectionID);
  if decide (Player.Role conn <> PlayerRoleHost)
  then fail "only the host can end the game"
  else endGame now (EndGamePayload.SessionID payload).

Definition HandleMessage (ctx : Context.t) (now : Z) (connectionID : string)
    (msg : WSInbound) : M unit :=
  match msg with
  | InJoinSession payload => HandleJoinSession ctx now connectionID payload
  | InSubmitAnswer payload => HandleSubmitAnswer now connectionID payload
  | InStartGame payload => HandleStartGame now connectionID payload
  | InNextQuestion payload => HandleNextQuestion now connectionID payload
  | InEndGame payload => HandleEndGame now connectionID payload
  | InOther action => fail ("unknown action: " +:+ action)
  end.

(** The background task spawned by [endGame], when it runs. *)
Definition runCleanup (sessionID : string) : M unit :=
  DeleteSession sessionID.

(** ** Running a call, and a small world to run it in *)

Definition run {A} (m : M A) (w : World) : World := (m w).1.
Definition outcome {A} (m : M A) (w : World) : res A := (m w).2.

(** The scenario of the specification: a quiz of two questions, a session in
    the lobby, the host on connection [ch] and two players on [c1] and [c2],
    all three registered when their sockets connected, in local mode. *)
Module Demo.
Definition q1 : Question.t :=
  Question.mk "q1" "2 + 2" [Option.mk "optA" "4"; Option.mk "optB" "5"]
    "optA" 20 1000.
Definition q2 : Question.t :=
  Question.mk "q2" "3 + 3" [Option.mk "optA" "5"; Option.mk "optB" "6"]
    "optB" 10 500.
Definition quiz : Quiz.t := Quiz.mk "quiz1" "host-user" "Sums" "" [q1; q2] 0 0.

(** The same quiz with the other option marked correct in each question. *)
Definition remarked : Quiz.t :=
  Quiz.mk "quiz1" "host-user" "Sums" ""
    [Question.mk "q1" "2 + 2" [Option.mk "optA" "4"; Option.mk "optB" "5"]
       "optB" 20 1000;
     Question.mk "q2" "3 + 3" [Option.mk "optA" "5"; Option.mk "optB" "6"]
       "optA" 10 500] 0 0.

Definition lobby : Session.t :=
  Session.mk "s1" "123456" "quiz1" "host-user" SessionStatusLobby 0 None None 0.

Definition peer (id : string) (writeErr : option string) : Connection.t :=
  Connection.mk id "s1" (Socket.mk writeErr).

Definition hub (c2err : option string) : Hub.t :=
  Hub.mk
    (list_to_map [("ch", peer "ch" None); ("c1", peer "c1" None);
                  ("c2", peer "c2" c2err)])
    {[ "s1" := {[ "ch"; "c1"; "c2" ]} ]}.

Definition registry : gmap (string * string) Player.t :=
  list_to_map
    [(("s1", "ch"), Player.mk "s1" "ch" "host-user" "" PlayerRoleHost 0 86400);
     (("s1", "c1"), Player.mk "s1" "c1" "anon-1f0e3dad" "" PlayerRolePlayer 0 86400);
     (("s1", "c2"), Player.mk "s1" "c2" "anon-9c2b77e1" "" PlayerRolePlayer 0 86400)].

(** [c2err] is the error the socket of [c2] answers writes with, if any. *)
Definition world_with (env : string) (c2err : option string) : World :=
  mkWorld {[ "quiz1" := quiz ]} {[ "s1" := lobby ]} registry ∅ ∅ ∅
    env (Some (hub c2err)) [] [] [].

Definition world : World := world_with "local" None.

Definition anonymous : Context.t := Context.mk None.

Definition join (cid nickname : string) : M unit :=
  HandleJoinSession anonymous 1 cid (JoinSessionPayload.mk "s1" nickname).
Definition start (cid : string) : M unit :=
  HandleStartGame 2 cid (StartGamePayload.mk "s1").
Definition answer (cid qid opt : string) (ms : Z) : M unit :=
  HandleSubmitAnswer 3 cid (SubmitAnswerPayload.mk qid opt ms).
Definition next (cid : string) : M unit :=
  HandleNextQuestion 4 cid (NextQuestionPayload.mk "s1").
Definition finish (cid : string) : M unit :=
  HandleEndGame 5 cid (EndGamePayload.mk "s1").

(** The lobby after [alice] has joined on [c1] and [bob] on [c2], and the
    game the host starts from there. *)
Definition joined : World := run (join "c2" "bob") (run (join "c1" "alice") world).

(** The lobby when the host has a second connection, [ch2], open. *)
Definition two_hosts : World :=
  set_ConnectionsTable
    (insert ("s1", "ch2") (Player.mk "s1" "ch2" "host-user" "" PlayerRoleHost 0 86400))
    world.

(** The game once the host has started it ... *)
Definition started : World := run (start "ch") world.
(** ... and once the host has ended it. *)
Definition finished : World := run (finish "ch") started.
End Demo.

(** ** Vocabulary of the statements *)

(** The member ["type"] of a frame. *)
Definition frame_type (j : json) : option string :=
  match j with
  | JObj (("type", JStr t) :: _) => Some t
  | _ => None
  end.

(** An outbound message is redacted when its encoding has no member
    [correctOptionId] at any depth. *)
Definition redacted (ev : WSOutbound.t) : Prop :=
  has_member "correctOptionId" (marshal ev) = false.

(** Every [question] message is redacted. *)
Definition question_safe (ev : WSOutbound.t) : Prop :=
  WSOutbound.Typ ev = WSTypeQuestion -> redacted ev.

(** A quiz with the marks of the correct options erased: two quizzes with
    the same image differ at most in which option is marked correct. *)
Definition erase_correct (q : Question.t) : Question.t :=
  Question.mk (Question.QuestionID q) (Question.Text q) (Question.Options q)
    "" (Question.TimeLimitSeconds q) (Question.Points q).

Definition erase_correct_options (quiz : Quiz.t) : Quiz.t :=
  Quiz.mk (Quiz.QuizID quiz) (Quiz.HostUserID quiz) (Quiz.Title quiz)
    (Quiz.Description quiz) (map erase_correct (Quiz.Questions quiz))
    (Quiz.CreatedAt quiz) (Quiz.UpdatedAt quiz).

(** What a call adds to the two observation logs: every broadcast call it
    makes satisfies [P], and every frame it writes is the encoding of a
    message that satisfies [P]. *)
Definition emits (P : WSOutbound.t -> Prop) {A} (m : M A) : Prop :=
  forall w, exists calls frames,
    Broadcasts (run m w) = Broadcasts w ++ calls
    /\ Wire (run m w) = Wire w ++ frames
    /\ Forall (fun c => P c.2) calls
    /\ Forall (fun f => exists ev, P ev /\ f.2 = marshal ev) frames.

(** A socket of the hub on which a write fails: the connection is gone from
    the hub, or its [WriteMessage] returns an error. *)
Definition dead_peer (h : Hub.t) (id : string) : Prop :=
  match Hub.connections h !! id with
  | None => True
  | Some conn => is_Some (Socket.WriteErr (Connection.Conn conn))
  end.

(** The number of PLAYER connections of a session, as
    [GetPlayerCountBySession] counts them. *)
Definition player_count (sessionID : string) (w : World) : Z :=
  Z.of_nat (length
    (filter (fun p => Player.Role p = PlayerRolePlayer)
       (filter (fun kv : (string * string) * Player.t => kv.1.1 = sessionID)
               (map_to_list (ConnectionsTable w))).*2)).

(** The points and the record of an answer, as [HandleSubmitAnswer] computes
    them before it stores the answer. *)
Definition earned (payload : SubmitAnswerPayload.t) (question : Question.t) : Z :=
  CalculateScore
    (bool_decide (SubmitAnswerPayload.SelectedOptionID payload
                  = Question.CorrectOptionID question))
    (SubmitAnswerPayload.TimeTakenMs payload)
    (wrap64 (Question.TimeLimitSeconds question * 1000))
    (Question.Points question).

Definition answer_record (now : Z) (payload : SubmitAnswerPayload.t)
    (conn : Player.t) (question : Question.t) : Answer.t :=
  Answer.mk (Player.SessionID conn)
    (compositeKey (Player.UserID conn) (SubmitAnswerPayload.QuestionID payload))
    (SubmitAnswerPayload.QuestionID payload)
    (Player.UserID conn)
    (SubmitAnswerPayload.SelectedOptionID payload)
    (bool_decide (SubmitAnswerPayload.SelectedOptionID payload
                  = Question.CorrectOptionID question))
    (SubmitAnswerPayload.TimeTakenMs payload)
    (earned payload question)
    now.

(** The stores after the writes of an accepted submission. *)
Definition answer_stored (now : Z) (payload : SubmitAnswerPayload.t)
    (conn : Player.t) (question : Question.t) (w : World) : World :=
  let w1 :=
    set_AnswersTable
      (insert (Player.SessionID conn,
               compositeKey (Player.UserID conn)
                 (SubmitAnswerPayload.QuestionID payload))
              (answer_record now payload conn question)) w in
  if decide (0 < earned payload question)
  then set_Leaderboards
         (insert (Player.SessionID conn)
            (<[Player.UserID conn :=
                 default 0 (zset w (Player.SessionID conn) !! Player.UserID conn)
                 + earned payload question]>
               (zset w (Player.SessionID conn)))) w1
  else w1.

(** ** Overlapping requests

    Requests of different connections are handled concurrently (a goroutine
    per connection in local mode, an invocation per message behind the
    gateway) and the engine takes no lock; every store call is atomic on its
    own.  Two requests overlap when the store calls of one fall between
    those of the other.  The schedules below keep the order of each
    handler's own calls: both handlers read before either writes. *)


(** Two [start_game] requests that both read the session in the lobby; the
    first one's writes and a complete [next_question] come before the
    second one's writes. *)
Definition overlapping_starts
    (now1 : Z) (cid1 : string) (payload1 : StartGamePayload.t)
    (now2 : Z) (cid2 : string) (payload2 : StartGamePayload.t)
    (between : M unit) : M unit :=
  quiz1 ← startGame_check cid1 payload1;
  quiz2 ← startGame_check cid2 payload2;
  startGame_commit now1 payload1 quiz1;;
  between;;
  startGame_commit now2 payload2 quiz2.

(* ===================================================================== *)
(** * Part II.  Lemmas and theorems                                       *)
(* ===================================================================== *)

(** ** Binary64 facts used by the score calculator *)

Section Binary64.

Lemma iter_pos_iter {A} (f : A -> A) (n : positive) (x : A) :
  SpecFloat.iter_pos f n x = Pos.iter f x n.
Proof.
  revert x; induction n as [n IH | n IH |]; intros x; simpl.
  - rewrite !IH. now rewrite <- !Pos.iter_swap.
  - now rewrite !IH.
  - reflexivity.
Qed.

Lemma shr_1_even (q : positive) :
  shr_1 (Build_shr_record (Zpos (q~0)) false false)
  = Build_shr_record (Zpos q) false false.
Proof. reflexivity. Qed.

(** Shifting out [k] zero bits is exact. *)
Lemma shr_shifted (m k : positive) :
  SpecFloat.iter_pos shr_1 k (Build_shr_record (Zpos (Pos.iter xO m k)) false false)
  = Build_shr_record (Zpos m) false false.
Proof.
  rewrite iter_pos_iter.
  induction k as [| k IH] using Pos.peano_ind.
  - reflexivity.
  - rewrite Pos.iter_succ_r, Pos.iter_succ. rewrite shr_1_even. exact IH.
Qed.

Lemma digits2_shifted (m k : positive) :
  digits2_pos (Pos.iter xO m k) = (digits2_pos m + k)%positive.
Proof.
  induction k as [| k IH] using Pos.peano_ind.
  - simpl. lia.
  - rewrite Pos.iter_succ. simpl. rewrite IH. lia.
Qed.

Lemma Zpos_shifted (m k : positive) :
  Zpos (Pos.iter xO m k) = Zpos m * 2 ^ Zpos k.
Proof.
  induction k as [| k IH] using Pos.peano_ind.
  - simpl. lia.
  - rewrite Pos.iter_succ, Pos2Z.inj_xO, IH, Pos2Z.inj_succ, Z.pow_succ_r by lia.
    ring.
Qed.

(** Rounding a value that is already representable returns it. *)
Lemma round_representable (s : bool) (m : positive) (e : Z) :
  normal53 m e ->
  binary_round_aux F64.prec F64.emax s (Zpos m) e loc_Exact = S754_finite s m e.
Proof.
  intros [Hd He].
  unfold binary_round_aux, shr_fexp, fexp, emin, F64.prec, F64.emax.
  cbn [Zdigits2 shr_record_of_loc]. rewrite Hd.
  replace (Z.max (53 + e - 53) (3 - 1024 - 53) - e) with 0 by lia.
  cbn [shr shr_m loc_of_shr_record round_nearest_even Zdigits2 shr_record_of_loc].
  rewrite Hd.
  replace (Z.max (53 + e - 53) (3 - 1024 - 53) - e) with 0 by lia.
  cbn [shr shr_m].
  destruct (Z.leb_spec e (1024 - 53)); [reflexivity | lia].
Qed.

Lemma round_representable_shifted (s : bool) (m k : positive) (e : Z) :
  normal53 m e ->
  binary_round_aux F64.prec F64.emax s (Zpos (Pos.iter xO m k)) (e - Zpos k) loc_Exact
  = S754_finite s m e.
Proof.
  intros [Hd He].
  unfold binary_round_aux, shr_fexp, fexp, emin, F64.prec, F64.emax.
  cbn [Zdigits2 shr_record_of_loc]. rewrite digits2_shifted, Hd.
  replace (Z.max (Zpos (53 + k) + (e - Zpos k) - 53) (3 - 1024 - 53) - (e - Zpos k))
    with (Zpos k) by lia.
  cbn [shr]. rewrite shr_shifted.
  cbn [shr_m loc_of_shr_record round_nearest_even Zdigits2 shr_record_of_loc].
  replace (e - Zpos k + Zpos k) with e by lia.
  rewrite Hd.
  replace (Z.max (53 + e - 53) (3 - 1024 - 53) - e) with 0 by lia.
  cbn [shr shr_m].
  destruct (Z.leb_spec e (1024 - 53)); [reflexivity | lia].
Qed.

Lemma digits2_le (p : positive) (n : Z) :
  0 <= n -> Zpos p < 2 ^ n -> Zpos (digits2_pos p) <= n.
Proof.
  revert n; induction p as [p IH | p IH |]; intros n Hn Hp.
  - assert (n <> 0) by (intros ->; simpl in Hp; lia).
    replace n with (Z.succ (n - 1)) in Hp by lia.
    rewrite Z.pow_succ_r in Hp by lia.
    specialize (IH (n - 1) ltac:(lia) ltac:(lia)). simpl. lia.
  - assert (n <> 0) by (intros ->; simpl in Hp; lia).
    replace n with (Z.succ (n - 1)) in Hp by lia.
    rewrite Z.pow_succ_r in Hp by lia.
    specialize (IH (n - 1) ltac:(lia) ltac:(lia)). simpl. lia.
  - assert (n <> 0) by (intros ->; simpl in Hp; lia). simpl. lia.
Qed.

Lemma norm53_digits (p : positive) :
  Zpos (digits2_pos p) <= 53 -> digits2_pos (norm53 p) = 53%positive.
Proof.
  intros Hd. unfold norm53.
  destruct (53 - Zpos (digits2_pos p)) as [| k | k] eqn:E; try lia.
  rewrite digits2_shifted. lia.
Qed.

Lemma norm53_value (p : positive) :
  Zpos (digits2_pos p) <= 53 ->
  Zpos (norm53 p) = Zpos p * 2 ^ (53 - Zpos (digits2_pos p)).
Proof.
  intros Hd. unfold norm53.
  destruct (53 - Zpos (digits2_pos p)) as [| k | k] eqn:E; try lia.
  apply Zpos_shifted.
Qed.

(** Integers of at most 53 bits convert exactly. *)
Lemma binary_round_small (s : bool) (p : positive) :
  Zpos (digits2_pos p) <= 53 ->
  binary_round F64.prec F64.emax s p 0
  = S754_finite s (norm53 p) (Zpos (digits2_pos p) - 53).
Proof.
  intros Hd. unfold binary_round, shl_align, fexp, emin, F64.prec, F64.emax, norm53.
  replace (Z.max (Zpos (digits2_pos p) + 0 - 53) (3 - 1024 - 53) - 0)
    with (- (53 - Zpos (digits2_pos p))) by lia.
  replace (Z.max (Zpos (digits2_pos p) + 0 - 53) (3 - 1024 - 53))
    with (Zpos (digits2_pos p) - 53) by lia.
  destruct (53 - Zpos (digits2_pos p)) as [| k | k] eqn:E; try lia; cbn [Z.opp].
  - replace (Zpos (digits2_pos p) - 53) with 0 by lia.
    apply round_representable. split; [lia | lia].
  - apply round_representable. split; [rewrite digits2_shifted | ]; lia.
Qed.

Lemma of_int_pos (p : positive) :
  Zpos p < 2 ^ 53 ->
  F64.of_int (Zpos p) = S754_finite false (norm53 p) (Zpos (digits2_pos p) - 53).
Proof. intros H. apply binary_round_small, digits2_le; lia. Qed.

Lemma of_int_neg (p : positive) :
  Zpos p < 2 ^ 53 ->
  F64.of_int (Zneg p) = S754_finite true (norm53 p) (Zpos (digits2_pos p) - 53).
Proof. intros H. apply binary_round_small, digits2_le; lia. Qed.

Lemma mul_pow2_r (m : positive) :
  (m * 4503599627370496)%positive = Pos.iter xO m 52.
Proof. rewrite Pos.mul_comm. reflexivity. Qed.

(** Halving a normal number only lowers its exponent. *)
Lemma mul_half (s : bool) (m : positive) (e : Z) :
  normal53 m (e - 1) ->
  F64.mul (S754_finite s m e) F64.half = S754_finite s m (e - 1).
Proof.
  intros Hn. unfold F64.mul, F64.half, SFmul.
  rewrite mul_pow2_r, xorb_false_r.
  replace (e + -53) with (e - 1 - 52) by lia.
  now apply round_representable_shifted.
Qed.

Lemma mul_one (s : bool) (m : positive) (e : Z) :
  normal53 m e ->
  F64.mul (S754_finite s m e) F64.one = S754_finite s m e.
Proof.
  intros Hn. unfold F64.mul, F64.one, SFmul.
  rewrite mul_pow2_r, xorb_false_r.
  replace (e + -52) with (e - 52) by lia.
  now apply round_representable_shifted.
Qed.

(** A finite value divided by itself is exactly one. *)
Lemma div_self (s : bool) (m : positive) (e : Z) :
  F64.div (S754_finite s m e) (S754_finite s m e) = F64.one.
Proof.
  unfold F64.div, SFdiv, SFdiv_core_binary, fexp, emin, F64.prec, F64.emax.
  rewrite !Z.sub_diag. cbn [Z.max Z.min Z.compare Z.sub Z.opp Z.add Z.pos_sub].
  change (Z.min (Z.max (0 - 53) (3 - 1024 - 53)) 0) with (-53).
  change (0 - -53) with 53.
  destruct (Z.div_eucl (Z.shiftl (Zpos m) 53) (Zpos m)) as [q r] eqn:E.
  assert (Hq : q = 2 ^ 53).
  { change q with (fst (q, r)). rewrite <- E.
    change (fst (Z.div_eucl (Z.shiftl (Zpos m) 53) (Zpos m)))
      with (Z.shiftl (Zpos m) 53 / Zpos m).
    rewrite Z.shiftl_mul_pow2, Z.mul_comm by lia. apply Z.div_mul. lia. }
  assert (Hr : r = 0).
  { change r with (snd (q, r)). rewrite <- E.
    change (snd (Z.div_eucl (Z.shiftl (Zpos m) 53) (Zpos m)))
      with (Z.shiftl (Zpos m) 53 mod Zpos m).
    rewrite Z.shiftl_mul_pow2, Z.mul_comm by lia. apply Z.mod_mul. lia. }
  subst q r. rewrite xorb_nilpotent.
  replace (new_location (Zpos m) 0) with loc_Exact
    by (unfold new_location, new_location_even, new_location_odd;
        now destruct (Z.even (Zpos m))).
  reflexivity.
Qed.

(** *** Integers of more than 53 bits *)

Lemma shr_1_halves (mrs : shr_record) :
  0 <= shr_m mrs -> shr_m (shr_1 mrs) = shr_m mrs / 2.
Proof.
  destruct mrs as [m r s]. cbn [shr_m]. intros Hm.
  destruct m as [| [q | q |] | q]; cbn [shr_1 shr_m]; try reflexivity; try lia.
  - rewrite Pos2Z.inj_xI. apply (Z.div_unique _ _ _ 1); lia.
  - rewrite Pos2Z.inj_xO. apply (Z.div_unique _ _ _ 0); lia.
Qed.

Lemma shr_iter_divides (k : positive) (mrs : shr_record) :
  0 <= shr_m mrs ->
  shr_m (SpecFloat.iter_pos shr_1 k mrs) = shr_m mrs / 2 ^ Zpos k.
Proof.
  intros Hm. rewrite iter_pos_iter.
  induction k as [| k IH] using Pos.peano_ind.
  - cbn [Pos.iter]. now rewrite shr_1_halves.
  - rewrite Pos.iter_succ, shr_1_halves, IH.
    + rewrite Pos2Z.inj_succ, Z.pow_succ_r, Z.div_div by lia.
      now rewrite Z.mul_comm.
    + rewrite IH. apply Z.div_pos; lia.
Qed.

Lemma digits2_bounds (p : positive) :
  2 ^ (Zpos (digits2_pos p) - 1) <= Zpos p < 2 ^ Zpos (digits2_pos p).
Proof.
  induction p as [p IH | p IH |]; cbn [digits2_pos]; [| | now cbn].
  - rewrite Pos2Z.inj_succ, Z.pow_succ_r by lia.
    replace (Z.succ (Zpos (digits2_pos p)) - 1)
      with (Z.succ (Zpos (digits2_pos p) - 1)) by lia.
    rewrite Z.pow_succ_r by lia. lia.
  - rewrite Pos2Z.inj_succ, Z.pow_succ_r by lia.
    replace (Z.succ (Zpos (digits2_pos p)) - 1)
      with (Z.succ (Zpos (digits2_pos p) - 1)) by lia.
    rewrite Z.pow_succ_r by lia. lia.
Qed.

Lemma digits2_unique (p : positive) (n : Z) :
  2 ^ (n - 1) <= Zpos p < 2 ^ n -> Zpos (digits2_pos p) = n.
Proof.
  intros [Hlo Hhi]. pose proof (digits2_bounds p) as [Dlo Dhi].
  assert (0 < n).
  { destruct (Z.lt_ge_cases 0 n) as [| Hn]; [assumption |].
    destruct (Z.eq_dec n 0) as [-> | Hn0]; [cbn in Hhi; lia |].
    rewrite Z.pow_neg_r in Hhi by lia. lia. }
  destruct (Z.lt_trichotomy (Zpos (digits2_pos p)) n) as [Hlt | [Heq | Hgt]];
    [| assumption |].
  - assert (2 ^ Zpos (digits2_pos p) <= 2 ^ (n - 1))
      by (apply Z.pow_le_mono_r; lia). lia.
  - assert (2 ^ n <= 2 ^ (Zpos (digits2_pos p) - 1))
      by (apply Z.pow_le_mono_r; lia). lia.
Qed.

Lemma round_nearest_even_bounds (m : Z) (l : location) :
  m <= round_nearest_even m l <= m + 1.
Proof.
  destruct l as [| []]; cbn [round_nearest_even]; try lia.
  destruct (Z.even m); lia.
Qed.

(** An integer between 2^53 and 2^64 converts to a normal number. *)
Lemma binary_round_large (s : bool) (p : positive) :
  53 < Zpos (digits2_pos p) <= 64 ->
  exists m e, binary_round F64.prec F64.emax s p 0 = S754_finite s m e
              /\ digits2_pos m = 53%positive /\ 0 <= e <= 12.
Proof.
  intros Hd. pose proof (digits2_bounds p) as [Plo Phi].
  set (d := Zpos (digits2_pos p)) in *.
  destruct (d - 53) as [| k | k] eqn:Ek; try lia.
  unfold binary_round, shl_align, fexp, emin, F64.prec, F64.emax. fold d.
  replace (Z.max (d + 0 - 53) (3 - 1024 - 53) - 0) with (Zpos k) by lia.
  unfold binary_round_aux, shr_fexp, fexp, emin. cbn [Zdigits2]. fold d.
  replace (Z.max (d + 0 - 53) (3 - 1024 - 53) - 0) with (Zpos k) by lia.
  cbn [shr shr_record_of_loc].
  set (mrs := SpecFloat.iter_pos shr_1 k _).
  assert (Hm1 : shr_m mrs = Zpos p / 2 ^ Zpos k)
    by (subst mrs; now rewrite shr_iter_divides).
  assert (Hb1 : 2 ^ 52 <= shr_m mrs < 2 ^ 53).
  { rewrite Hm1. split.
    - apply Z.div_le_lower_bound; [lia |].
      rewrite <- Z.pow_add_r by lia. replace (Zpos k + 52) with (d - 1) by lia. lia.
    - apply Z.div_lt_upper_bound; [lia |].
      rewrite <- Z.pow_add_r by lia. replace (Zpos k + 53) with d by lia. lia. }
  pose proof (round_nearest_even_bounds (shr_m mrs) (loc_of_shr_record mrs)) as Hr.
  destruct (round_nearest_even (shr_m mrs) (loc_of_shr_record mrs)) as [| q | q] eqn:Eq;
    try lia.
  cbn [Zdigits2].
  destruct (Z.eq_dec (Zpos q) (2 ^ 53)) as [Hq | Hq].
  - assert (q = 9007199254740992%positive) as -> by (apply Pos2Z.inj; exact Hq).
    change (Zpos (digits2_pos 9007199254740992)) with 54.
    replace (Z.max (54 + (0 + Zpos k) - 53) (3 - 1024 - 53) - (0 + Zpos k)) with 1 by lia.
    cbn [shr SpecFloat.iter_pos shr_1 shr_m].
    destruct (Z.leb_spec (0 + Zpos k + 1) (1024 - 53)); [| lia].
    eexists _, _. split; [reflexivity |]. split; [reflexivity | lia].
  - assert (Hdq : Zpos (digits2_pos q) = 53) by (apply digits2_unique; lia).
    rewrite Hdq.
    replace (Z.max (53 + (0 + Zpos k) - 53) (3 - 1024 - 53) - (0 + Zpos k)) with 0 by lia.
    cbn [shr shr_m].
    destruct (Z.leb_spec (0 + Zpos k) (1024 - 53)); [| lia].
    eexists _, _. split; [reflexivity |]. split; [lia | lia].
Qed.

(** Every non-zero [int] converts to a normal number. *)
Lemma of_int_normal (n : Z) :
  n <> 0 -> - 2 ^ 63 <= n < 2 ^ 63 ->
  exists m e, F64.of_int n = S754_finite (n <? 0) m e
              /\ digits2_pos m = 53%positive /\ -52 <= e <= 12.
Proof.
  intros Hn Hr.
  assert (Hcase : forall (s : bool) (p : positive), Zpos p <= 2 ^ 63 ->
            exists m e, binary_round F64.prec F64.emax s p 0 = S754_finite s m e
                        /\ digits2_pos m = 53%positive /\ -52 <= e <= 12).
  { intros s p Hp.
    assert (Hd : Zpos (digits2_pos p) <= 64) by (apply digits2_le; lia).
    destruct (Z.le_gt_cases (Zpos (digits2_pos p)) 53) as [Hs | Hl].
    - rewrite binary_round_small by exact Hs.
      eexists _, _. split; [reflexivity |]. split; [now apply norm53_digits | lia].
    - destruct (binary_round_large s p) as (m & e & E & Hm & He); [lia |].
      exists m, e. split; [exact E |]. split; [exact Hm | lia]. }
  destruct n as [| p | p]; [congruence | |].
  - apply (Hcase false p). lia.
  - apply (Hcase true p). lia.
Qed.

End Binary64.

(** ** Score calculator *)

Section Score.

Lemma wrap64_id (z : Z) : int64_range z -> wrap64 z = z.
Proof.
  unfold int64_range, wrap64. intros H.
  rewrite Z.mod_small; lia.
Qed.

(** What [float64(b) * 0.5] is for an integer below 2^53 in magnitude:
    a zero or a normal number [y], unchanged by a multiplication by one,
    annihilated by a zero, and truncating to the quotient of [b] by two. *)
Lemma half_of_int (b : Z) :
  - 2 ^ 53 < b < 2 ^ 53 ->
  let y := F64.mul (F64.of_int b) F64.half in
  F64.mul y F64.one = y
  /\ F64.to_int (F64.mul y (S754_zero false)) = 0
  /\ F64.to_int y = Z.quot b 2.
Proof.
  intros Hb. destruct b as [| p | p].
  - cbv beta zeta. repeat split; reflexivity.
  - cbv zeta. rewrite of_int_pos by lia.
    assert (Hd : Zpos (digits2_pos p) <= 53) by (apply digits2_le; lia).
    assert (Hn : normal53 (norm53 p) (Zpos (digits2_pos p) - 53 - 1)).
    { split; [now apply norm53_digits | lia]. }
    rewrite mul_half by exact Hn.
    split; [now apply mul_one |]. split; [reflexivity |].
    unfold F64.to_int, F64.trunc_abs.
    destruct (Zpos (digits2_pos p) - 53 - 1) as [| k | k] eqn:E; try lia.
    rewrite Z.shiftr_div_pow2, norm53_value by lia.
    replace (2 ^ Zpos k) with (2 * 2 ^ (53 - Zpos (digits2_pos p))).
    2:{ replace (Zpos k) with (Z.succ (53 - Zpos (digits2_pos p))) by lia.
        rewrite Z.pow_succ_r by lia. reflexivity. }
    rewrite Z.div_mul_cancel_r by lia.
    rewrite Z.quot_div_nonneg by lia.
    assert (0 <= Zpos p / 2 < 2 ^ 53) by (split; [apply Z.div_pos | apply Z.div_lt_upper_bound]; lia).
    destruct (Z.leb_spec (- 2 ^ 63) (Zpos p / 2)); [| lia].
    destruct (Z.ltb_spec (Zpos p / 2) (2 ^ 63)); [reflexivity | lia].
  - cbv zeta. rewrite of_int_neg by lia.
    assert (Hd : Zpos (digits2_pos p) <= 53) by (apply digits2_le; lia).
    assert (Hn : normal53 (norm53 p) (Zpos (digits2_pos p) - 53 - 1)).
    { split; [now apply norm53_digits | lia]. }
    rewrite mul_half by exact Hn.
    split; [now apply mul_one |]. split; [reflexivity |].
    unfold F64.to_int, F64.trunc_abs.
    destruct (Zpos (digits2_pos p) - 53 - 1) as [| k | k] eqn:E; try lia.
    rewrite Z.shiftr_div_pow2, norm53_value by lia.
    replace (2 ^ Zpos k) with (2 * 2 ^ (53 - Zpos (digits2_pos p))).
    2:{ replace (Zpos k) with (Z.succ (53 - Zpos (digits2_pos p))) by lia.
        rewrite Z.pow_succ_r by lia. reflexivity. }
    rewrite Z.div_mul_cancel_r by lia.
    change (Zneg p) with (- Zpos p). rewrite Z.quot_opp_l by lia.
    rewrite Z.quot_div_nonneg by lia.
    assert (0 <= Zpos p / 2 < 2 ^ 53) by (split; [apply Z.div_pos | apply Z.div_lt_upper_bound]; lia).
    destruct (Z.leb_spec (- 2 ^ 63) (- (Zpos p / 2))); [| lia].
    destruct (Z.ltb_spec (- (Zpos p / 2)) (2 ^ 63)); [reflexivity | lia].
Qed.

Lemma score_incorrect (t L b : Z) : CalculateScore false t L b = 0.
Proof. reflexivity. Qed.

Lemma score_untimed (t L b : Z) : L <= 0 -> CalculateScore true t L b = b.
Proof.
  intros H. unfold CalculateScore. cbn [negb].
  destruct (Z.leb_spec L 0); [reflexivity | lia].
Qed.

Lemma score_timed (t L b : Z) :
  0 < L ->
  CalculateScore true t L b = wrap64 (b + bonus_binary64 (clamp_time t L) L b).
Proof.
  intros H. unfold CalculateScore, bonus_binary64, clamp_time. cbn [negb].
  destruct (Z.leb_spec L 0); [lia |]. cbv zeta.
  replace (if (if t <? 0 then 0 else t) >? L then L else if t <? 0 then 0 else t)
    with (Z.max 0 (Z.min t L)); [reflexivity |].
  destruct (Z.ltb_spec t 0).
  - destruct (0 >? L) eqn:E; [apply Z.gtb_lt in E |]; lia.
  - destruct (t >? L) eqn:E; [apply Z.gtb_lt in E | rewrite Z.gtb_ltb in E; apply Z.ltb_ge in E]; lia.
Qed.

Lemma score_is_binary64 (c : bool) (t L b : Z) :
  CalculateScore c t L b = score_binary64 c t L b.
Proof.
  destruct c; [| reflexivity].
  destruct (Z.leb_spec L 0) as [H | H].
  - rewrite score_untimed by lia. unfold score_binary64. cbn [negb].
    destruct (Z.leb_spec L 0); [reflexivity | lia].
  - rewrite score_timed by lia. unfold score_binary64. cbn [negb].
    destruct (Z.leb_spec L 0); [lia | reflexivity].
Qed.

Lemma clamp_time_idem (t L : Z) :
  0 < L -> clamp_time (clamp_time t L) L = clamp_time t L.
Proof. unfold clamp_time. lia. Qed.

Lemma score_clamped (t L b : Z) :
  0 < L -> CalculateScore true t L b = CalculateScore true (clamp_time t L) L b.
Proof. intros H. now rewrite !score_timed, clamp_time_idem by lia. Qed.

(** For every [int], the product [float64(b) * 0.5] is a zero or a finite
    number, so a zero factor annihilates it. *)
Lemma half_annihilated (b : Z) :
  - 2 ^ 63 <= b < 2 ^ 63 ->
  F64.to_int (F64.mul (F64.mul (F64.of_int b) F64.half) (S754_zero false)) = 0.
Proof.
  intros Hb. destruct (Z.eq_dec b 0) as [-> | Hne]; [reflexivity |].
  destruct (of_int_normal b Hne Hb) as (m & e & -> & Hm & He).
  rewrite mul_half by (split; [exact Hm | lia]). reflexivity.
Qed.

Lemma bonus_full_time (L b : Z) :
  0 < L < 2 ^ 63 -> - 2 ^ 63 <= b < 2 ^ 63 -> bonus_binary64 L L b = 0.
Proof.
  intros HL Hb. unfold bonus_binary64.
  destruct (of_int_normal L) as (m & e & -> & _); [lia | lia |].
  rewrite div_self.
  change (F64.sub F64.one F64.one) with (S754_zero false).
  now apply half_annihilated.
Qed.

Lemma bonus_instant (L b : Z) :
  0 < L < 2 ^ 63 -> - 2 ^ 53 < b < 2 ^ 53 -> bonus_binary64 0 L b = Z.quot b 2.
Proof.
  intros HL Hb. unfold bonus_binary64.
  destruct (of_int_normal L) as (m & e & -> & _); [lia | lia |].
  change (F64.sub F64.one (F64.div (F64.of_int 0) _)) with F64.one.
  destruct (half_of_int b Hb) as (H1 & _ & H3). cbv zeta in H1, H3.
  now rewrite H1.
Qed.

End Score.

(** *** Claim C1 *)

(** C1, counterexample.  The score calculator does not compute the exact
    formula of the specification: for a correct answer after 340 ms of a
    1000 ms limit on a 100-point question, the exact bonus is
    [floor (100 * 0.5 * 0.66) = 33], while the binary64 product is just below
    33 and truncates to 32. *)
Lemma CalculateScore_differs_from_reference :
  CalculateScore true 340 1000 100 = 132
  /\ score_reference true 340 1000 100 = 133
  /\ CalculateScore true 340 1000 100 <> score_reference true 340 1000 100.
Proof. vm_compute. repeat split; congruence. Qed.

(** C1, amended.  For every input the score calculator equals the contract
    evaluated in binary64.  An incorrect answer scores 0 whatever the timing; a correct
    answer to a question without a positive time limit scores exactly
    [basePoints]; otherwise the time taken is clamped into [0, timeLimitMs]
    (so a time outside that interval scores as the nearer boundary) and the
    result is [basePoints] plus the binary64 value of
    [float64(basePoints) * 0.5 * (1 - t / timeLimitMs)] truncated toward zero.
    For every [int64] limit and every [int] base, a correct answer that used
    the full time scores exactly [basePoints]; an instant correct answer
    scores [basePoints] plus half of it, the half rounded toward zero, as
    long as the base is below 2^53 in magnitude. *)
Theorem CalculateScore_contract (t L b : Z) :
  (forall isCorrect, CalculateScore isCorrect t L b = score_binary64 isCorrect t L b)
  /\ CalculateScore false t L b = 0
  /\ (L <= 0 -> CalculateScore true t L b = b)
  /\ (0 < L ->
      CalculateScore true t L b = CalculateScore true (clamp_time t L) L b
      /\ CalculateScore true t L b
         = wrap64 (b + bonus_binary64 (clamp_time t L) L b))
  /\ (0 < L < 2 ^ 63 -> - 2 ^ 63 <= b < 2 ^ 63 -> L <= t ->
      CalculateScore true t L b = b)
  /\ (0 < L < 2 ^ 63 -> - 2 ^ 53 < b < 2 ^ 53 -> t <= 0 ->
      CalculateScore true t L b = b + Z.quot b 2).
Proof.
  split; [intros c; apply score_is_binary64 |].
  split; [apply score_incorrect |].
  split; [apply score_untimed |].
  split; [| split].
  - intros HL. split; [now apply score_clamped | now apply score_timed].
  - intros HL Hb Ht. rewrite score_timed by lia.
    replace (clamp_time t L) with L by (unfold clamp_time; lia).
    rewrite bonus_full_time by lia. rewrite Z.add_0_r.
    now apply wrap64_id.
  - intros HL Hb Ht. rewrite score_timed by lia.
    replace (clamp_time t L) with 0 by (unfold clamp_time; lia).
    rewrite bonus_instant by lia.
    apply wrap64_id. unfold int64_range.
    assert (Hq : - 2 ^ 53 < Z.quot b 2 < 2 ^ 53).
    { destruct (Z.le_gt_cases 0 b).
      - rewrite Z.quot_div_nonneg by lia.
        assert (0 <= b / 2 <= b)
          by (split; [apply Z.div_pos | apply Z.div_le_upper_bound]; lia).
        lia.
      - replace b with (- - b) by lia. rewrite Z.quot_opp_l by lia.
        rewrite Z.quot_div_nonneg by lia.
        assert (0 <= - b / 2 <= - b)
          by (split; [apply Z.div_pos | apply Z.div_le_upper_bound]; lia).
        lia. }
    lia.
Qed.

(** C1, witness: the end-to-end figures of the specification's scenario
    (20 s limit, 1000 points) at the two boundaries, beyond them, and for an
    untimed question. *)
Lemma CalculateScore_contract_witness :
  CalculateScore true 25000 20000 1000 = 1000
  /\ CalculateScore true (-5) 20000 1000 = 1500
  /\ CalculateScore true 7 0 1000 = 1000
  /\ CalculateScore true 25000 20000 1000 = CalculateScore true 20000 20000 1000.
Proof.
  destruct (CalculateScore_contract 25000 20000 1000) as (_ & _ & _ & H3 & H4 & _).
  destruct (CalculateScore_contract (-5) 20000 1000) as (_ & _ & _ & _ & _ & H5).
  destruct (CalculateScore_contract 7 0 1000) as (_ & _ & H2 & _).
  split; [apply H4; lia |].
  split; [apply H5; lia |].
  split; [apply H2; lia |].
  apply (proj1 (H3 ltac:(lia))).
Defined.

(** ** Running calls *)

Section Calls.
Context {A B : Type}.

Lemma bind_run (m : M A) (f : A -> M B) (w : World) :
  (m ≫= f) w
  = match m w with
    | (w', Ret a) => f a w'
    | (w', Err e) => (w', Err e)
    | (w', Panic p) => (w', Panic p)
    end.
Proof. reflexivity. Qed.

Lemma bind_ret (m : M A) (f : A -> M B) (w w' : World) (a : A) :
  m w = (w', Ret a) -> (m ≫= f) w = f a w'.
Proof. intros H. rewrite bind_run, H. reflexivity. Qed.

Lemma bind_err (m : M A) (f : A -> M B) (w w' : World) (e : string) :
  m w = (w', Err e) -> (m ≫= f) w = (w', Err e).
Proof. intros H. rewrite bind_run, H. reflexivity. Qed.

Lemma bind_panic (m : M A) (f : A -> M B) (w w' : World) (p : panic) :
  m w = (w', Panic p) -> (m ≫= f) w = (w', Panic p).
Proof. intros H. rewrite bind_run, H. reflexivity. Qed.

Lemma wrapping_ret (prefix : string) (m : M A) (w w' : World) (a : A) :
  m w = (w', Ret a) -> wrapping prefix m w = (w', Ret a).
Proof. intros H. unfold wrapping. rewrite H. reflexivity. Qed.

Lemma wrapping_err (prefix : string) (m : M A) (w w' : World) (e : string) :
  m w = (w', Err e) -> wrapping prefix m w = (w', Err (prefix +:+ ": " +:+ e)).
Proof. intros H. unfold wrapping. rewrite H. reflexivity. Qed.
End Calls.


Lemma ret_run {A} (a : A) (w : World) : (mret a : M A) w = (w, Ret a).
Proof. reflexivity. Qed.

(** Frames appended to the wire, calls appended to the broadcast trace. *)
Lemma set_Wire_nil (w : World) : set_Wire (fun l => l ++ []) w = w.
Proof. destruct w. unfold set_Wire. cbn. now rewrite app_nil_r. Qed.

Lemma set_Wire_app (f1 f2 : list (string * json)) (w : World) :
  set_Wire (fun l => l ++ f2) (set_Wire (fun l => l ++ f1) w)
  = set_Wire (fun l => l ++ (f1 ++ f2)) w.
Proof. unfold set_Wire. cbn. now rewrite app_assoc. Qed.

(** ** The connection index *)

Lemma GetSessionByConnectionID_same (cid : string) (w w' : World) (r : res Player.t) :
  GetSessionByConnectionID cid w = (w', r) -> w' = w.
Proof.
  unfold GetSessionByConnectionID.
  destruct (list_find _ _) as [[? [? ?]] |]; now intros [= <- _].
Qed.

Lemma GetSessionByConnectionID_ext (cid : string) (w1 w2 : World) :
  ConnectionsTable w1 = ConnectionsTable w2 ->
  (GetSessionByConnectionID cid w1).2 = (GetSessionByConnectionID cid w2).2.
Proof.
  intros H. unfold GetSessionByConnectionID. rewrite H.
  now destruct (list_find _ _) as [[? [? ?]] |].
Qed.

Lemma GetSessionByConnectionID_transfer (cid : string) (w1 w2 : World) (r : res Player.t) :
  ConnectionsTable w1 = ConnectionsTable w2 ->
  GetSessionByConnectionID cid w1 = (w1, r) ->
  GetSessionByConnectionID cid w2 = (w2, r).
Proof.
  intros H H1. pose proof (GetSessionByConnectionID_ext cid w1 w2 H) as E.
  rewrite H1 in E. cbn in E. subst r.
  destruct (GetSessionByConnectionID cid w2) as [w' r'] eqn:E2.
  now rewrite (GetSessionByConnectionID_same _ _ _ _ E2).
Qed.

(** A connection registered under one session only is what the index
    returns. *)
Lemma GetSessionByConnectionID_unique (cid sid : string) (w : World) (p : Player.t) :
  ConnectionsTable w !! (sid, cid) = Some p ->
  (forall sid', sid' <> sid -> ConnectionsTable w !! (sid', cid) = None) ->
  GetSessionByConnectionID cid w = (w, Ret p).
Proof.
  intros Hp Huniq. unfold GetSessionByConnectionID.
  destruct (list_find _ _) as [[i [[sid' cid'] p']] |] eqn:E.
  - apply list_find_Some in E as (Hi & Hc & _). cbn in Hc. subst cid'.
    apply list_elem_of_lookup_2 in Hi. apply elem_of_map_to_list in Hi.
    destruct (decide (sid' = sid)) as [-> | Hne].
    + rewrite Hp in Hi. now injection Hi as ->.
    + rewrite (Huniq sid' Hne) in Hi. discriminate.
  - apply list_find_None in E.
    apply elem_of_map_to_list in Hp.
    rewrite Forall_forall in E. apply E in Hp. now cbn in Hp.
Qed.

(** ** Deliveries *)

Lemma Hub_SendToConnection_spec (h : Hub.t) (cid : string) (data : json) (w : World) :
  Hub_SendToConnection h cid data w = (set_Wire (fun l => l ++ [(cid, data)]) w, Ret tt)
  \/ exists e, Hub_SendToConnection h cid data w = (w, Err e).
Proof.
  unfold Hub_SendToConnection.
  destruct (Hub.connections h !! cid) as [conn |]; [| right; eauto].
  destruct (Socket.WriteErr (Connection.Conn conn)); [right; eauto | now left].
Qed.

Lemma hub_fold_spec (h : Hub.t) (data : json) (ids : list string) :
  forall (acc : option string) (w : World),
  exists frames acc',
    foldM (fun lastErr id =>
             err ← try (Hub_SendToConnection h id data);
             mret (match err with Some e => Some e | None => lastErr end))
          acc ids w
    = (set_Wire (fun l => l ++ frames) w, Ret acc')
    /\ Forall (fun f => f.2 = data) frames.
Proof.
  induction ids as [| id ids IH]; intros acc w; cbn [foldM].
  - exists [], acc. now rewrite set_Wire_nil.
  - rewrite bind_run. unfold try at 1.
    rewrite bind_run.
    destruct (Hub_SendToConnection_spec h id data w) as [E | [e E]]; rewrite E.
    + destruct (IH acc (set_Wire (fun l => l ++ [(id, data)]) w))
        as (frames & acc' & E' & HF).
      exists ((id, data) :: frames), acc'. split.
      * cbn beta iota. rewrite ret_run, E'. now rewrite set_Wire_app.
      * now constructor.
    + destruct (IH (Some e) w) as (frames & acc' & E' & HF).
      exists frames, acc'. split; [| exact HF].
      cbn beta iota. rewrite ret_run. exact E'.
Qed.

(** The outcomes of a delivery: done, or an error; never a panic. *)
Definition delivered (r : res unit) : Prop := r = Ret tt \/ exists e, r = Err e.

Lemma Hub_BroadcastToSession_spec (h : Hub.t) (sid : string) (data : json) (w : World) :
  exists frames r,
    Hub_BroadcastToSession h sid data w = (set_Wire (fun l => l ++ frames) w, r)
    /\ delivered r /\ Forall (fun f => f.2 = data) frames.
Proof.
  unfold Hub_BroadcastToSession.
  destruct (Hub.sessions h !! sid) as [ids |].
  - destruct (hub_fold_spec h data (elements ids) None w) as (frames & acc & E & HF).
    rewrite bind_run, E.
    exists frames. destruct acc as [e |].
    + exists (Err e). repeat split; [right; eauto | exact HF].
    + exists (Ret tt). repeat split; [now left | exact HF].
  - exists [], (Ret tt). rewrite set_Wire_nil. repeat split; [now left | constructor].
Qed.

Lemma SendToConnection_spec (cid : string) (ev : WSOutbound.t) (w : World) :
  exists frames r,
    SendToConnection cid ev w = (set_Wire (fun l => l ++ frames) w, r)
    /\ delivered r /\ Forall (fun f => f.2 = marshal ev) frames.
Proof.
  unfold SendToConnection. rewrite bind_run. unfold gets at 1.
  destruct (local_hub w) as [h |].
  - destruct (Hub_SendToConnection_spec h cid (marshal ev) w) as [E | [e E]]; rewrite E.
    + exists [(cid, marshal ev)], (Ret tt). repeat split; [now left | now constructor].
    + exists [], (Err e). rewrite set_Wire_nil. repeat split; [right; eauto | constructor].
  - exists [], (Ret tt). rewrite set_Wire_nil. repeat split; [now left | constructor].
Qed.

Lemma SendToConnection_production (cid : string) (ev : WSOutbound.t) (w : World) :
  local_hub w = None -> SendToConnection cid ev w = (w, Ret tt).
Proof.
  intros H. unfold SendToConnection. rewrite bind_run. unfold gets at 1.
  now rewrite H.
Qed.

Lemma production_fold_spec (sid : string) (ev : WSOutbound.t) (conns : list Player.t) :
  forall w, local_hub w = None ->
  foldM (fun (_ : unit) conn =>
           sendErr ← try (SendToConnection (Player.ConnectionID conn) ev);
           match sendErr with
           | Some _ => DeleteConnection sid (Player.ConnectionID conn)
           | None => mret tt
           end) tt conns w
  = (w, Ret tt).
Proof.
  induction conns as [| c conns IH]; intros w Hw; cbn [foldM]; [reflexivity |].
  rewrite bind_run, bind_run. unfold try at 1.
  rewrite SendToConnection_production by exact Hw.
  cbn. now apply IH.
Qed.

(** A broadcast appends one call to the trace and frames to the wire; it
    changes nothing else and cannot panic. *)
Lemma BroadcastToSession_spec (sid : string) (ev : WSOutbound.t) (w : World) :
  exists frames r,
    BroadcastToSession sid ev w
    = (set_Wire (fun l => l ++ frames)
         (set_Broadcasts (fun l => l ++ [(sid, ev)]) w), r)
    /\ delivered r /\ Forall (fun f => f.2 = marshal ev) frames.
Proof.
  unfold BroadcastToSession. rewrite bind_run. unfold modify at 1.
  set (w1 := set_Broadcasts _ w).
  rewrite bind_run. unfold gets at 1.
  destruct (local_hub w1) as [h |] eqn:Eh.
  - apply Hub_BroadcastToSession_spec.
  - rewrite bind_run. unfold GetConnectionsBySession at 1, gets at 1.
    rewrite production_fold_spec by exact Eh.
    exists [], (Ret tt). rewrite set_Wire_nil. repeat split; [now left | constructor].
Qed.

(** ** Leaderboard rows (claim C9) *)

Lemma fill_scores_short_identity (nicknames : gmap string string)
    (userID : string) (score : Z) (results : list (string * Z)) :
  (userID, score) ∈ results ->
  default "" (nicknames !! userID) = "" ->
  (String.length userID < 8)%nat ->
  forall i, fill_scores nicknames i results = Panic SliceOutOfRange.
Proof.
  intros Hin Hnick Hlen.
  induction results as [| [u s] rest IH]; intros i.
  - inversion Hin.
  - cbn [fill_scores].
    apply elem_of_cons in Hin as [[= <- <-] | Hin].
    + rewrite Hnick. cbn. unfold slice_to.
      destruct (Nat.leb_spec 8 (String.length userID)); [lia | reflexivity].
    + rewrite (IH Hin).
      destruct (decide _); [destruct (slice_to u 8) |]; reflexivity.
Qed.

(** Whenever a member of the requested range has no nickname and an
    identity shorter than eight bytes, [GetTopN] panics. *)
Lemma GetTopN_short_identity (w : World) (sid : string) (n : Z)
    (userID : string) (score : Z) :
  (userID, score) ∈ ZRevRangeWithScores (zset w sid) 0 (n - 1) ->
  default "" (default ∅ (Nicknames w !! sid) !! userID) = "" ->
  (String.length userID < 8)%nat ->
  GetTopN sid n w = (w, Panic SliceOutOfRange).
Proof.
  intros Hin Hnick Hlen. unfold GetTopN.
  now rewrite (fill_scores_short_identity _ userID score).
Qed.

(** C9, the failing input.  A connection registered under the identity
    [bob] answers the first question without having joined: [ZINCRBY] adds the
    member [bob] to the sorted set, no nickname is stored for it, and the
    fallback [userID[:8]] slices past the end of a three-byte string.
    [GetTopN] panics instead of returning a degraded row, and so does the
    host's next [NextQuestion]. *)
Theorem GetTopN_panics_on_short_identity :
  let w0 := set_ConnectionsTable
              (insert ("s1", "c3")
                 (Player.mk "s1" "c3" "bob" "" PlayerRolePlayer 0 86400))
              Demo.started in
  let w := run (Demo.answer "c3" "q1" "optA" 5000) w0 in
  zset w "s1" !! "bob" = Some 1375
  /\ GetTopN "s1" 10 w = (w, Panic SliceOutOfRange)
  /\ outcome (Demo.next "ch") w = Panic SliceOutOfRange.
Proof. vm_compute. repeat split; reflexivity. Qed.

(** ** NextQuestion on a finished session (claim C5) *)

Lemma GetTopN_same (sid : string) (n : Z) (w w' : World) (r : res (list PlayerScore.t)) :
  GetTopN sid n w = (w', r) -> w' = w.
Proof. unfold GetTopN. now intros [= <- _]. Qed.

(** With the stored index at -1 the handler reaches
    [quiz.Questions[session.CurrentQuestionIndex]] and panics, whatever the
    status and the quiz. *)
Lemma HandleNextQuestion_negative_index (now : Z) (cid : string)
    (payload : NextQuestionPayload.t) (w : World)
    (conn : Player.t) (session : Session.t) :
  GetSessionByConnectionID cid w = (w, Ret conn) ->
  Player.Role conn = PlayerRoleHost ->
  SessionsTable w !! NextQuestionPayload.SessionID payload = Some session ->
  Session.CurrentQuestionIndex session = -1 ->
  exists p, HandleNextQuestion now cid payload w = (w, Panic p).
Proof.
  intros Hconn Hrole Hsess Hidx. unfold HandleNextQuestion.
  rewrite (bind_ret _ _ _ _ _ (wrapping_ret _ _ _ _ _ Hconn)).
  destruct (decide (Player.Role conn <> PlayerRoleHost)) as [Hne | _]; [congruence |].
  rewrite bind_run. unfold GetSession at 1, gets at 1. rewrite Hsess.
  rewrite bind_run. unfold GetQuiz at 1, gets at 1.
  rewrite bind_run. unfold dropping_err.
  destruct (GetTopN _ 10 w) as [w' [lb | e | p]] eqn:E;
    pose proof (GetTopN_same _ _ _ _ _ E) as ->; [| | eauto];
    (destruct (QuizzesTable w !! Session.QuizID session) as [quiz |]; [| eauto]);
    rewrite Hidx; cbn; eauto.
Qed.

(** C5, the failing input.  The host ends the game, which stores status
    FINISHED and index -1, and then sends [next_question]: the handler does
    not look at the status, indexes the questions at -1 and panics.  Sent
    while the session is still in the lobby, the same action is not rejected
    either: it reveals the answer of the first question and moves the session
    to ACTIVE at the second one. *)
Theorem HandleNextQuestion_panics_when_finished :
  (Session.Status <$> SessionsTable Demo.finished !! "s1") = Some SessionStatusFinished
  /\ (Session.CurrentQuestionIndex <$> SessionsTable Demo.finished !! "s1") = Some (-1)
  /\ Demo.next "ch" Demo.finished = (Demo.finished, Panic IndexOutOfRange)
  /\ outcome (Demo.next "ch") Demo.world = Ret tt
  /\ (Session.Status <$> SessionsTable (run (Demo.next "ch") Demo.world) !! "s1")
     = Some SessionStatusActive
  /\ (Session.CurrentQuestionIndex
        <$> SessionsTable (run (Demo.next "ch") Demo.world) !! "s1") = Some 1.
Proof. vm_compute. repeat split; reflexivity. Qed.

(** ** Who learns what from StartGame (claim C8) *)

(** What a caller who is not the host is told by [HandleStartGame]: the
    answer is chosen by the session table before the role is looked at. *)
Lemma HandleStartGame_not_host (now : Z) (cid : string)
    (payload : StartGamePayload.t) (w : World) (conn : Player.t) :
  GetSessionByConnectionID cid w = (w, Ret conn) ->
  Player.Role conn <> PlayerRoleHost ->
  HandleStartGame now cid payload w
  = (w, Err match SessionsTable w !! StartGamePayload.SessionID payload with
            | None => "session not found"
            | Some session =>
                if decide (Session.Status session = SessionStatusLobby)
                then "only the host can start the game"
                else "game already started"
            end).
Proof.
  intros Hconn Hrole. unfold HandleStartGame, startGame_check.
  rewrite !bind_run. unfold GetSession at 1, gets at 1.
  destruct (SessionsTable w !! _) as [session |]; [| reflexivity].
  destruct (decide (Session.Status session = SessionStatusLobby)) as [Hs | Hs].
  - destruct (decide (Session.Status session <> SessionStatusLobby)); [congruence |].
    rewrite bind_run, (wrapping_ret _ _ _ _ _ Hconn).
    destruct (decide (Player.Role conn <> PlayerRoleHost)); [reflexivity | contradiction].
  - destruct (decide (Session.Status session <> SessionStatusLobby)); [reflexivity | contradiction].
Qed.

(** The two sibling handlers look at the role first. *)
Lemma HandleNextQuestion_not_host (now : Z) (cid : string)
    (payload : NextQuestionPayload.t) (w : World) (conn : Player.t) :
  GetSessionByConnectionID cid w = (w, Ret conn) ->
  Player.Role conn <> PlayerRoleHost ->
  HandleNextQuestion now cid payload w
  = (w, Err "only the host can advance questions").
Proof.
  intros Hconn Hrole. unfold HandleNextQuestion.
  rewrite (bind_ret _ _ _ _ _ (wrapping_ret _ _ _ _ _ Hconn)).
  destruct (decide (Player.Role conn <> PlayerRoleHost)); [reflexivity | contradiction].
Qed.

Lemma HandleEndGame_not_host (now : Z) (cid : string)
    (payload : EndGamePayload.t) (w : World) (conn : Player.t) :
  GetSessionByConnectionID cid w = (w, Ret conn) ->
  Player.Role conn <> PlayerRoleHost ->
  HandleEndGame now cid payload w = (w, Err "only the host can end the game").
Proof.
  intros Hconn Hrole. unfold HandleEndGame.
  rewrite (bind_ret _ _ _ _ _ (wrapping_ret _ _ _ _ _ Hconn)).
  destruct (decide (Player.Role conn <> PlayerRoleHost)); [reflexivity | contradiction].
Qed.

(** C8, the failing input.  The player on [c1] sends [start_game] three
    times: for a session that does not exist, for the session while it is in
    the lobby, and for the same session once it is active.  No call changes
    the world, but the three answers differ, so the caller learns whether the
    session exists and whether it has started.  [next_question] and
    [end_game] answer the same caller with one fixed message. *)
Theorem HandleStartGame_answers_depend_on_session :
  HandleStartGame 2 "c1" (StartGamePayload.mk "s0") Demo.world
    = (Demo.world, Err "session not found")
  /\ HandleStartGame 2 "c1" (StartGamePayload.mk "s1") Demo.world
    = (Demo.world, Err "only the host can start the game")
  /\ HandleStartGame 2 "c1" (StartGamePayload.mk "s1") Demo.started
    = (Demo.started, Err "game already started")
  /\ HandleNextQuestion 4 "c1" (NextQuestionPayload.mk "s0") Demo.world
    = (Demo.world, Err "only the host can advance questions")
  /\ HandleNextQuestion 4 "c1" (NextQuestionPayload.mk "s1") Demo.started
    = (Demo.started, Err "only the host can advance questions").
Proof. vm_compute. repeat split; reflexivity. Qed.

(** ** Order and ranks of the leaderboard rows

    The part of the contract of [GetTopN] that holds whenever it returns:
    the rows come in descending order of score and are ranked from 1. *)

#[global] Instance zrev_before_total : Total zrev_before.
Proof.
  intros [m1 s1] [m2 s2]. unfold zrev_before. cbn.
  destruct (Z.lt_trichotomy s1 s2) as [H | [H | H]]; [right; now left | | left; now left].
  subst s2. destruct (String.leb_total m1 m2); [right | left]; right; now split.
Qed.

Lemma zrev_all_descending (z : gmap string Z) :
  StronglySorted (fun x y : Z => y <= x) (zrev_all z).*2.
Proof.
  apply Sorted_StronglySorted; [intros x y t; lia |].
  apply (Sorted_fmap snd zrev_before (fun x y : Z => y <= x)).
  - intros a b [H | [H _]]; lia.
  - apply Sorted_merge_sort, _.
Qed.

Lemma StronglySorted_take {A} (R : relation A) (n : nat) (l : list A) :
  StronglySorted R l -> StronglySorted R (take n l).
Proof.
  intros H. rewrite <- (take_drop n l) in H. now apply StronglySorted_app_1_l in H.
Qed.

Lemma StronglySorted_drop {A} (R : relation A) (n : nat) (l : list A) :
  StronglySorted R l -> StronglySorted R (drop n l).
Proof.
  intros H. rewrite <- (take_drop n l) in H. now apply StronglySorted_app_1_r in H.
Qed.

Lemma ZRevRangeWithScores_descending (z : gmap string Z) (start stop : Z) :
  StronglySorted (fun x y : Z => y <= x) (ZRevRangeWithScores z start stop).*2.
Proof.
  unfold ZRevRangeWithScores. cbv zeta.
  destruct (_ <? _); [constructor |].
  rewrite fmap_take, fmap_drop.
  apply StronglySorted_take, StronglySorted_drop, zrev_all_descending.
Qed.

Lemma fill_scores_rows (nicknames : gmap string string) (results : list (string * Z)) :
  forall (i : Z) (rows : list PlayerScore.t),
  fill_scores nicknames i results = Ret rows ->
  PlayerScore.Score <$> rows = results.*2
  /\ PlayerScore.UserID <$> rows = results.*1
  /\ forall (k : nat) (row : PlayerScore.t),
       rows !! k = Some row -> PlayerScore.Rank row = i + 1 + Z.of_nat k.
Proof.
  induction results as [| [u s] rest IH]; intros i rows; cbn [fill_scores].
  - intros [= <-]. repeat split. intros k row Hk. now rewrite lookup_nil in Hk.
  - destruct (if decide _ then _ else _) as [nick |]; [| discriminate].
    destruct (fill_scores nicknames (i + 1) rest) as [rows' | |] eqn:E; try discriminate.
    intros [= <-]. destruct (IH _ _ E) as (Hs & Hu & Hr).
    cbn. rewrite Hs, Hu. repeat split.
    intros [| k] row Hk; cbn in Hk.
    + injection Hk as <-. cbn. lia.
    + rewrite (Hr k row Hk). lia.
Qed.

(** Whenever [GetTopN] returns, the rows are the requested range of the
    sorted set, in descending order of score, ranked 1, 2, 3, ... *)
Lemma GetTopN_ordered (sid : string) (n : Z) (w : World) (rows : list PlayerScore.t) :
  GetTopN sid n w = (w, Ret rows) ->
  StronglySorted (fun x y : Z => y <= x) (PlayerScore.Score <$> rows)
  /\ forall (k : nat) (row : PlayerScore.t),
       rows !! k = Some row -> PlayerScore.Rank row = Z.of_nat k + 1.
Proof.
  unfold GetTopN. intros [= H].
  destruct (fill_scores_rows _ _ _ _ H) as (Hs & _ & Hr). split.
  - rewrite Hs. apply ZRevRangeWithScores_descending.
  - intros k row Hk. rewrite (Hr k row Hk). lia.
Qed.

(** With a nickname stored for every member, or identities of at least
    eight bytes, it does return. *)
Lemma fill_scores_returns (nicknames : gmap string string) (results : list (string * Z)) :
  Forall (fun r => default "" (nicknames !! r.1) <> ""
                   \/ (8 <= String.length r.1)%nat) results ->
  forall i, exists rows, fill_scores nicknames i results = Ret rows.
Proof.
  induction 1 as [| [u s] rest Hu Hrest IH]; intros i; cbn [fill_scores]; [eauto |].
  destruct (IH (i + 1)) as [rows ->]. cbn in Hu.
  destruct (decide (default "" (nicknames !! u) = "")) as [He | He].
  - destruct Hu as [Hu | Hu]; [contradiction |].
    unfold slice_to. destruct (Nat.leb_spec 8 (String.length u)); [eauto | lia].
  - eauto.
Qed.

(** ** Broadcast failures (claim C6) *)

Lemma Hub_SendToConnection_dead (h : Hub.t) (id : string) (data : json) (w : World) :
  dead_peer h id -> exists e, Hub_SendToConnection h id data w = (w, Err e).
Proof.
  unfold dead_peer, Hub_SendToConnection.
  destruct (Hub.connections h !! id) as [conn |]; [| eauto].
  intros [e ->]. eauto.
Qed.

Lemma hub_fold_keeps_error (h : Hub.t) (data : json) (ids : list string) :
  forall (acc : option string) (w : World),
  is_Some acc \/ (exists id, id ∈ ids /\ dead_peer h id) ->
  exists w' e,
    foldM (fun lastErr id =>
             err ← try (Hub_SendToConnection h id data);
             mret (match err with Some e => Some e | None => lastErr end))
          acc ids w
    = (w', Ret (Some e)).
Proof.
  induction ids as [| id ids IH]; intros acc w H; cbn [foldM].
  - destruct H as [[e ->] | (id & Hin & _)]; [eauto | inversion Hin].
  - rewrite bind_run, bind_run. unfold try at 1.
    destruct H as [Hacc | (id' & Hin & Hdead)].
    + destruct (Hub_SendToConnection_spec h id data w) as [E | [e E]];
        rewrite E; cbn beta iota; rewrite ret_run; apply IH; left; eauto.
    + apply elem_of_cons in Hin as [-> | Hin].
      * destruct (Hub_SendToConnection_dead h id data w Hdead) as [e E].
        rewrite E. cbn beta iota. rewrite ret_run. apply IH. left; eauto.
      * destruct (Hub_SendToConnection_spec h id data w) as [E | [e E]];
          rewrite E; cbn beta iota; rewrite ret_run; apply IH; right; eauto.
Qed.

(** In local mode a broadcast returns an error as soon as one delivery
    fails, whatever happens to the others. *)
Lemma BroadcastToSession_local_error (sid : string) (ev : WSOutbound.t)
    (w : World) (h : Hub.t) (ids : gset string) (id : string) :
  local_hub w = Some h ->
  Hub.sessions h !! sid = Some ids ->
  id ∈ ids -> dead_peer h id ->
  exists w' e, BroadcastToSession sid ev w = (w', Err e).
Proof.
  intros Hh Hs Hid Hdead. unfold BroadcastToSession.
  rewrite bind_run. unfold modify at 1. rewrite bind_run. unfold gets at 1.
  replace (local_hub (set_Broadcasts _ w)) with (Some h) by (now rewrite <- Hh).
  unfold Hub_BroadcastToSession. rewrite Hs, bind_run.
  destruct (hub_fold_keeps_error h (marshal ev) (elements ids) None
              (set_Broadcasts (fun l => l ++ [(sid, ev)]) w)) as (w' & e & E).
  { right. exists id. split; [now apply elem_of_elements | exact Hdead]. }
  rewrite E. eauto.
Qed.

(** Outside local mode it never does. *)
Lemma BroadcastToSession_production (sid : string) (ev : WSOutbound.t) (w : World) :
  local_hub w = None ->
  BroadcastToSession sid ev w
  = (set_Broadcasts (fun l => l ++ [(sid, ev)]) w, Ret tt).
Proof.
  intros Hh. unfold BroadcastToSession.
  rewrite bind_run. unfold modify at 1. rewrite bind_run. unfold gets at 1.
  replace (local_hub (set_Broadcasts _ w)) with (@None Hub.t) by (now rewrite <- Hh).
  rewrite bind_run. unfold GetConnectionsBySession at 1, gets at 1.
  now apply production_fold_spec.
Qed.

(** C6, the failing input.  Local mode; the socket of [c2] has been closed
    by its peer and is still in the hub.  [Hub.BroadcastToSession] returns the
    write error; [alice]'s [join_session] on [c1] registers her, initialises
    her score and nickname, and then reports that error to her; the host's
    [start_game] moves the session to ACTIVE, fails on the [game_started]
    broadcast and never sends the first question.  With the production
    broadcaster both calls succeed. *)
Theorem broadcast_failure_fails_the_action :
  let w := Demo.world_with "local" (Some "use of closed network connection") in
  let joined := run (Demo.join "c1" "alice") w in
  let started := run (Demo.start "ch") w in
  outcome (Hub_BroadcastToSession (Demo.hub (Some "use of closed network connection"))
             "s1" JNull) w
    = Err "use of closed network connection"
  /\ outcome (Demo.join "c1" "alice") w = Err "use of closed network connection"
  /\ (Player.Nickname <$> ConnectionsTable joined !! ("s1", "c1")) = Some "alice"
  /\ zset joined "s1" !! "anonymous" = Some 0
  /\ outcome (Demo.start "ch") w = Err "use of closed network connection"
  /\ (Session.Status <$> SessionsTable started !! "s1") = Some SessionStatusActive
  /\ (WSOutbound.Typ <$> (Broadcasts started).*2) = [WSTypeGameStarted]
  /\ outcome (Demo.join "c1" "alice")
       (Demo.world_with "production" (Some "use of closed network connection"))
     = Ret tt.
Proof. vm_compute. repeat split; reflexivity. Qed.

(** ** What the handlers put on the wire (claim C4) *)

Section Emits.
Variable P : WSOutbound.t -> Prop.

Lemma emits_same {A} (m : M A) :
  (forall w, Broadcasts (run m w) = Broadcasts w /\ Wire (run m w) = Wire w) ->
  emits P m.
Proof.
  intros H w. destruct (H w) as [Hb Hw]. exists [], [].
  rewrite Hb, Hw, !app_nil_r. repeat split; constructor.
Qed.

Lemma emits_bind {A B} (m : M A) (f : A -> M B) :
  emits P m -> (forall a, emits P (f a)) -> emits P (m ≫= f).
Proof.
  intros Hm Hf w. destruct (Hm w) as (c1 & f1 & Hb1 & Hw1 & Hc1 & Hf1).
  unfold run in *. rewrite bind_run.
  destruct (m w) as [w' [a | e | p]]; cbn [fst] in *.
  - destruct (Hf a w') as (c2 & f2 & Hb2 & Hw2 & Hc2 & Hf2).
    unfold run in Hb2, Hw2.
    exists (c1 ++ c2), (f1 ++ f2).
    rewrite Hb2, Hw2, Hb1, Hw1, !app_assoc.
    repeat split; try reflexivity; now apply Forall_app.
  - exists c1, f1. now repeat split.
  - exists c1, f1. now repeat split.
Qed.

Lemma emits_try {A} (m : M A) : emits P m -> emits P (try m).
Proof.
  intros Hm w. destruct (Hm w) as (c & f & H). exists c, f.
  unfold run, try in *. now destruct (m w) as [w' [a | e | p]].
Qed.

Lemma emits_wrapping {A} (prefix : string) (m : M A) :
  emits P m -> emits P (wrapping prefix m).
Proof.
  intros Hm w. destruct (Hm w) as (c & f & H). exists c, f.
  unfold run, wrapping in *. now destruct (m w) as [w' [a | e | p]].
Qed.

Lemma emits_dropping_err {A} (d : A) (m : M A) :
  emits P m -> emits P (dropping_err d m).
Proof.
  intros Hm w. destruct (Hm w) as (c & f & H). exists c, f.
  unfold run, dropping_err in *. now destruct (m w) as [w' [a | e | p]].
Qed.

Lemma emits_foldM {A B} (f : B -> A -> M B) (l : list A) :
  (forall acc x, emits P (f acc x)) -> forall acc, emits P (foldM f acc l).
Proof.
  intros Hf. induction l as [| x l IH]; intros acc; cbn [foldM].
  - now apply emits_same.
  - apply emits_bind; [apply Hf | exact IH].
Qed.

Lemma emits_BroadcastToSession (sid : string) (ev : WSOutbound.t) :
  P ev -> emits P (BroadcastToSession sid ev).
Proof.
  intros Hev w.
  destruct (BroadcastToSession_spec sid ev w) as (frames & r & E & _ & HF).
  exists [(sid, ev)], frames. unfold run. rewrite E.
  repeat split; [now repeat constructor |].
  eapply Forall_impl; [exact HF |]. intros fr Hfr. eauto.
Qed.

Lemma emits_SendToConnection (cid : string) (ev : WSOutbound.t) :
  P ev -> emits P (SendToConnection cid ev).
Proof.
  intros Hev w.
  destruct (SendToConnection_spec cid ev w) as (frames & r & E & _ & HF).
  exists [], frames. unfold run. rewrite E.
  repeat split; [now rewrite app_nil_r | constructor |].
  eapply Forall_impl; [exact HF |]. intros fr Hfr. eauto.
Qed.
End Emits.

(** One step of a proof that a handler only emits messages with a given
    property: split a sequence, case on a test, or close a call that leaves
    both logs alone. *)
Ltac emits_step :=
  lazymatch goal with
  | |- emits _ (_ ≫= _) => apply emits_bind; [| intros ?]
  | |- emits _ (wrapping _ _) => apply emits_wrapping
  | |- emits _ (try _) => apply emits_try
  | |- emits _ (dropping_err _ _) => apply emits_dropping_err
  | |- emits _ (BroadcastToSession _ _) => apply emits_BroadcastToSession
  | |- emits _ (SendToConnection _ _) => apply emits_SendToConnection
  | |- emits _ (match ?x with _ => _ end) => destruct x
  | |- emits _ (let _ := _ in _) => cbv zeta
  | |- emits _ _ => apply emits_same; intros ?; split; reflexivity
  end.

Lemma GetSessionByConnectionID_emits (P : WSOutbound.t -> Prop) (cid : string) :
  emits P (GetSessionByConnectionID cid).
Proof.
  apply emits_same. intros w. unfold run.
  destruct (GetSessionByConnectionID cid w) as [w' r] eqn:E.
  now rewrite (GetSessionByConnectionID_same _ _ _ _ E).
Qed.

Lemma options_redacted (options : list Option.t) :
  existsb (has_member "correctOptionId") (map marshal_Option options) = false.
Proof. induction options as [| o options IH]; [reflexivity | exact IH]. Qed.

Lemma question_redacted (idx total : Z) (text : string)
    (options : list Option.t) (limit points : Z) :
  redacted (WSOutbound.mk WSTypeQuestion
              (QuestionPayload idx total text options limit points)).
Proof.
  unfold redacted, marshal, marshal_Payload. cbn.
  now rewrite options_redacted.
Qed.

Lemma sendQuestion_emits (sid : string) (quiz : Quiz.t) (idx : Z) :
  emits question_safe (sendQuestion sid quiz idx).
Proof.
  unfold sendQuestion. repeat emits_step.
  intros _. apply question_redacted.
Qed.

Lemma endGame_emits (now : Z) (sid : string) :
  emits question_safe (endGame now sid).
Proof.
  unfold endGame. repeat emits_step. discriminate.
Qed.

Lemma HandleJoinSession_emits (ctx : Context.t) (now : Z) (cid : string)
    (payload : JoinSessionPayload.t) :
  emits question_safe (HandleJoinSession ctx now cid payload).
Proof.
  unfold HandleJoinSession. repeat emits_step. discriminate.
Qed.

Lemma HandleStartGame_emits (now : Z) (cid : string) (payload : StartGamePayload.t) :
  emits question_safe (HandleStartGame now cid payload).
Proof.
  unfold HandleStartGame, startGame_check, startGame_commit.
  repeat first [apply GetSessionByConnectionID_emits | apply sendQuestion_emits | emits_step].
  discriminate.
Qed.

Lemma HandleSubmitAnswer_emits (now : Z) (cid : string) (payload : SubmitAnswerPayload.t) :
  emits question_safe (HandleSubmitAnswer now cid payload).
Proof.
  unfold HandleSubmitAnswer, submitAnswer_check, submitAnswer_commit.
  repeat first [apply GetSessionByConnectionID_emits | emits_step].
  discriminate.
Qed.

Lemma HandleNextQuestion_emits (now : Z) (cid : string) (payload : NextQuestionPayload.t) :
  emits question_safe (HandleNextQuestion now cid payload).
Proof.
  unfold HandleNextQuestion.
  repeat first [apply GetSessionByConnectionID_emits | apply sendQuestion_emits
               | apply endGame_emits | emits_step].
  discriminate.
Qed.

Lemma HandleEndGame_emits (now : Z) (cid : string) (payload : EndGamePayload.t) :
  emits question_safe (HandleEndGame now cid payload).
Proof.
  unfold HandleEndGame.
  repeat first [apply GetSessionByConnectionID_emits | apply endGame_emits | emits_step].
Qed.

Lemma erased_lookup (l1 l2 : list Question.t) :
  map erase_correct l1 = map erase_correct l2 ->
  forall i : nat, erase_correct <$> (l1 !! i) = erase_correct <$> (l2 !! i).
Proof.
  revert l2; induction l1 as [| a l1 IH]; intros [| b l2] H i;
    try discriminate; [reflexivity |].
  cbn [map] in H.
  assert (Hab : erase_correct a = erase_correct b) by congruence.
  assert (Hl : map erase_correct l1 = map erase_correct l2) by congruence.
  destruct i as [| i]; cbn; [now rewrite Hab | now apply IH].
Qed.

(** [sendQuestion] reads of a quiz only what survives the erasure of the
    correct options. *)
Lemma sendQuestion_erased (sid : string) (quiz1 quiz2 : Quiz.t) (idx : Z) (w : World) :
  erase_correct_options quiz1 = erase_correct_options quiz2 ->
  sendQuestion sid quiz1 idx w = sendQuestion sid quiz2 idx w.
Proof.
  intros H. assert (Hq : map erase_correct (Quiz.Questions quiz1)
                         = map erase_correct (Quiz.Questions quiz2))
    by (injection H; auto).
  assert (Hlen : length (Quiz.Questions quiz1) = length (Quiz.Questions quiz2)).
  { rewrite <- (length_map erase_correct (Quiz.Questions quiz1)), Hq.
    apply length_map. }
  unfold sendQuestion, index. rewrite Hlen.
  destruct (idx <? 0); [reflexivity |].
  assert (Hi : erase_correct <$> (Quiz.Questions quiz1 !! Z.to_nat idx)
               = erase_correct <$> (Quiz.Questions quiz2 !! Z.to_nat idx)).
  { now apply erased_lookup. }
  destruct (Quiz.Questions quiz1 !! Z.to_nat idx) as [a |],
           (Quiz.Questions quiz2 !! Z.to_nat idx) as [b |];
    try discriminate; [| reflexivity].
  cbn in Hi. assert (E : erase_correct a = erase_correct b) by congruence.
  pose proof (f_equal Question.Text E) as E1.
  pose proof (f_equal Question.Options E) as E2.
  pose proof (f_equal Question.TimeLimitSeconds E) as E3.
  pose proof (f_equal Question.Points E) as E4.
  cbn in E1, E2, E3, E4. now rewrite E1, E2, E3, E4.
Qed.

Lemma frame_type_marshal (ev : WSOutbound.t) :
  frame_type (marshal ev) = Some (WSOutbound.Typ ev).
Proof. reflexivity. Qed.

(** C4.  Whatever message a connection sends and whatever the world, every
    [question] message that the handler passes to the broadcaster, and every
    frame of type [question] that it writes to a socket, is encoded without
    a member [correctOptionId]; and the whole effect of question dispatch is
    the same for two quizzes that differ only in which options are marked
    correct. *)
Theorem question_events_are_redacted :
  (forall ctx now cid msg, emits question_safe (HandleMessage ctx now cid msg))
  /\ (forall ctx now cid msg w, exists frames,
        Wire (run (HandleMessage ctx now cid msg) w) = Wire w ++ frames
        /\ Forall (fun f : string * json =>
                     frame_type f.2 = Some WSTypeQuestion ->
                     has_member "correctOptionId" f.2 = false) frames)
  /\ (forall sid quiz1 quiz2 idx w,
        erase_correct_options quiz1 = erase_correct_options quiz2 ->
        sendQuestion sid quiz1 idx w = sendQuestion sid quiz2 idx w).
Proof.
  assert (Hall : forall ctx now cid msg,
             emits question_safe (HandleMessage ctx now cid msg)).
  { intros ctx now cid []; cbn [HandleMessage].
    - apply HandleJoinSession_emits.
    - apply HandleSubmitAnswer_emits.
    - apply HandleStartGame_emits.
    - apply HandleNextQuestion_emits.
    - apply HandleEndGame_emits.
    - now apply emits_same. }
  split; [exact Hall |]. split.
  - intros ctx now cid msg w.
    destruct (Hall ctx now cid msg w) as (calls & frames & _ & Hw & _ & Hf).
    exists frames. split; [exact Hw |].
    eapply Forall_impl; [exact Hf |].
    intros f (ev & Hev & ->). rewrite frame_type_marshal.
    intros [= Htyp]. now apply Hev.
  - intros. now apply sendQuestion_erased.
Qed.

(** C4, witness: dispatching the first question of the demonstration quiz
    and of the quiz with the marks exchanged has the same effect. *)
Lemma question_events_are_redacted_witness :
  sendQuestion "s1" Demo.quiz 0 Demo.world
  = sendQuestion "s1" Demo.remarked 0 Demo.world.
Proof.
  apply (proj2 (proj2 question_events_are_redacted)
           "s1" Demo.quiz Demo.remarked 0 Demo.world).
  reflexivity.
Defined.

(** ** The order of the messages of NextQuestion (claim C7) *)





Lemma endGame_run (now : Z) (sid : string) (w : World) :
  endGame now sid w
  = let w2 := (UpdateSessionStatus now sid SessionStatusFinished (-1) w).1 in
    match (dropping_err [] (GetTopN sid 100) w2).2 with
    | Ret final =>
        (BroadcastToSession sid
           (WSOutbound.mk WSTypeGameOver (GameOverPayload final));;
         modify (set_Cleanups (fun tasks => tasks ++ [sid]))) w2
    | Err e => (w2, Err e)
    | Panic p => (w2, Panic p)
    end.
Proof.
  unfold endGame. rewrite bind_run. unfold UpdateSessionStatus at 1, modify at 1.
  cbv zeta. rewrite bind_run. unfold dropping_err, GetTopN.
  now destruct (fill_scores _ _ _).
Qed.


Lemma UpdateSessionStatus_lookup (now : Z) (sid : string)
    (status : SessionStatus) (idx : Z) (w : World) :
  let w' := (UpdateSessionStatus now sid status idx w).1 in
  (Session.Status <$> SessionsTable w' !! sid) = Some status
  /\ (Session.CurrentQuestionIndex <$> SessionsTable w' !! sid) = Some idx.
Proof. cbn. now rewrite lookup_insert_eq. Qed.



(** ** Accepted joins and submissions *)

Lemma GetPlayerCountBySession_run (sid : string) (w : World) :
  GetPlayerCountBySession sid w = (w, Ret (player_count sid w)).
Proof. reflexivity. Qed.

(** A join that passes the four checks registers the connection, sets the
    score and the nickname under the identity taken from the context, and
    ends with the broadcast. *)
Lemma HandleJoinSession_accepted (ctx : Context.t) (now : Z) (cid sid nick : string)
    (w : World) (session : Session.t) :
  let userID := match getClaimsFromContext ctx with
                | Some claims => Claims.UserID claims
                | None => "anonymous"
                end in
  (0 < String.length nick <= 20)%nat ->
  SessionsTable w !! sid = Some session ->
  Session.Status session = SessionStatusLobby ->
  player_count sid w < 2000 ->
  HandleJoinSession ctx now cid (JoinSessionPayload.mk sid nick) w
  = BroadcastToSession sid
      (WSOutbound.mk WSTypePlayerJoined
         (PlayerJoinedPayload nick (wrap64 (player_count sid w + 1))))
      (set_Nicknames
         (insert sid (<[userID := nick]> (default ∅ (Nicknames w !! sid))))
         (set_Leaderboards
            (insert sid (<[userID := 0]> (zset w sid)))
            (set_ConnectionsTable
               (insert (sid, cid)
                  (Player.mk sid cid userID nick PlayerRolePlayer now (now + 24 * 3600)))
               w))).
Proof.
  intros userID Hnick Hsess Hstatus Hcount.
  unfold HandleJoinSession. cbn [JoinSessionPayload.SessionID JoinSessionPayload.Nickname].
  cbv zeta.
  destruct (decide (String.length nick = 0%nat \/ (20 < String.length nick)%nat));
    [lia |].
  rewrite bind_run. unfold GetSession at 1, gets at 1. rewrite Hsess.
  destruct (decide (Session.Status session <> SessionStatusLobby)); [congruence |].
  rewrite bind_run, GetPlayerCountBySession_run.
  destruct (decide (2000 <= player_count sid w)); [lia |].
  reflexivity.
Qed.

Lemma submitAnswer_check_inv (cid : string) (payload : SubmitAnswerPayload.t)
    (w w' : World) (conn : Player.t) (question : Question.t) :
  submitAnswer_check cid payload w = (w', Ret (conn, question)) ->
  w' = w
  /\ GetSessionByConnectionID cid w = (w, Ret conn)
  /\ (exists session,
        SessionsTable w !! Player.SessionID conn = Some session
        /\ Session.Status session = SessionStatusActive)
  /\ AnswersTable w !! (Player.SessionID conn,
                        compositeKey (Player.UserID conn)
                          (SubmitAnswerPayload.QuestionID payload)) = None.
Proof.
  unfold submitAnswer_check. rewrite bind_run. unfold wrapping.
  destruct (GetSessionByConnectionID cid w) as [w0 [conn0 | e | p]] eqn:Econn;
    try discriminate.
  pose proof (GetSessionByConnectionID_same _ _ _ _ Econn) as ->.
  rewrite bind_run. unfold GetSession at 1, gets at 1.
  destruct (SessionsTable w !! Player.SessionID conn0) as [session |] eqn:Es;
    [| discriminate].
  destruct (decide (Session.Status session <> SessionStatusActive)) as [| Hst];
    [discriminate |].
  rewrite bind_run. unfold GetAnswer at 1, gets at 1.
  destruct (AnswersTable w !! _) as [a |] eqn:Ea; [discriminate |].
  rewrite bind_run. unfold GetQuiz at 1, gets at 1.
  destruct (QuizzesTable w !! _) as [quiz |]; [| discriminate].
  destruct (list_find _ _) as [[i q] |]; [| discriminate].
  rewrite ret_run. intros [= <- <- <-].
  repeat split; try assumption.
  exists session. split; [assumption |].
  destruct (decide (Session.Status session = SessionStatusActive)); [assumption | contradiction].
Qed.

(** The writes of an accepted submission: the answer is put, the score is
    incremented when points were earned, and the result goes to the wire. *)
Lemma submitAnswer_commit_spec (now : Z) (cid : string)
    (payload : SubmitAnswerPayload.t) (conn : Player.t) (question : Question.t)
    (w : World) :
  exists frames r,
    submitAnswer_commit now cid payload conn question w
    = (set_Wire (fun l => l ++ frames) (answer_stored now payload conn question w), r)
    /\ delivered r.
Proof.
  unfold submitAnswer_commit. cbv zeta. fold (earned payload question).
  rewrite bind_run. unfold PutAnswer at 1, modify at 1.
  cbn [Answer.SessionID Answer.UserIDQuestionID].
  rewrite bind_run. unfold answer_stored, answer_record, compositeKey. cbv zeta.
  destruct (decide (0 < earned payload question)).
  - unfold IncrementScore at 1, modify at 1.
    rewrite bind_run. unfold GetPlayerRank at 1, gets at 1.
    rewrite bind_run. unfold GetPlayerScore at 1, gets at 1.
    match goal with
    | |- context [SendToConnection ?c ?ev ?w0] =>
        destruct (SendToConnection_spec c ev w0) as (frames & r & E & Hr & _)
    end.
    exists frames, r. split; [exact E | exact Hr].
  - rewrite ret_run.
    rewrite bind_run. unfold GetPlayerRank at 1, gets at 1.
    rewrite bind_run. unfold GetPlayerScore at 1, gets at 1.
    match goal with
    | |- context [SendToConnection ?c ?ev ?w0] =>
        destruct (SendToConnection_spec c ev w0) as (frames & r & E & Hr & _)
    end.
    exists frames, r. split; [exact E | exact Hr].
Qed.

Lemma answer_stored_tables (now : Z) (payload : SubmitAnswerPayload.t)
    (conn : Player.t) (question : Question.t) (w : World) :
  let w' := answer_stored now payload conn question w in
  ConnectionsTable w' = ConnectionsTable w
  /\ SessionsTable w' = SessionsTable w
  /\ QuizzesTable w' = QuizzesTable w
  /\ AnswersTable w'
     = <[(Player.SessionID conn,
          compositeKey (Player.UserID conn) (SubmitAnswerPayload.QuestionID payload))
         := answer_record now payload conn question]> (AnswersTable w).
Proof.
  unfold answer_stored. cbv zeta.
  destruct (decide (0 < earned payload question)); now repeat split.
Qed.

(** A submission for a key that already holds an answer is rejected before
    any write. *)
Lemma HandleSubmitAnswer_duplicate (now : Z) (cid : string)
    (payload : SubmitAnswerPayload.t) (w : World) (conn : Player.t)
    (existing : Answer.t) :
  GetSessionByConnectionID cid w = (w, Ret conn) ->
  AnswersTable w !! (Player.SessionID conn,
                     compositeKey (Player.UserID conn)
                       (SubmitAnswerPayload.QuestionID payload)) = Some existing ->
  HandleSubmitAnswer now cid payload w
  = (w, Err match SessionsTable w !! Player.SessionID conn with
            | Some session =>
                if decide (Session.Status session = SessionStatusActive)
                then "already answered this question"
                else "game is not active"
            | None => "game is not active"
            end).
Proof.
  intros Hconn Hans. unfold HandleSubmitAnswer.
  apply bind_err. unfold submitAnswer_check.
  rewrite (bind_ret _ _ _ _ _ (wrapping_ret _ _ _ _ _ Hconn)).
  rewrite bind_run. unfold GetSession at 1, gets at 1.
  destruct (SessionsTable w !! Player.SessionID conn) as [session |]; [| reflexivity].
  destruct (decide (Session.Status session = SessionStatusActive)) as [Hs | Hs].
  - destruct (decide (Session.Status session <> SessionStatusActive)); [congruence |].
    rewrite bind_run. unfold GetAnswer at 1, gets at 1. now rewrite Hans.
  - destruct (decide (Session.Status session <> SessionStatusActive));
      [reflexivity | contradiction].
Qed.

(** After an accepted submission, a submission for the same question from
    any connection of the same player in the same session is rejected as
    already answered and changes nothing. *)
Lemma HandleSubmitAnswer_second (now1 now2 : Z) (cid1 cid2 : string)
    (payload1 payload2 : SubmitAnswerPayload.t) (w : World)
    (conn1 conn2 : Player.t) (question : Question.t) :
  submitAnswer_check cid1 payload1 w = (w, Ret (conn1, question)) ->
  GetSessionByConnectionID cid2 w = (w, Ret conn2) ->
  Player.SessionID conn2 = Player.SessionID conn1 ->
  Player.UserID conn2 = Player.UserID conn1 ->
  SubmitAnswerPayload.QuestionID payload2 = SubmitAnswerPayload.QuestionID payload1 ->
  let w1 := run (HandleSubmitAnswer now1 cid1 payload1) w in
  (exists frames,
      w1 = set_Wire (fun l => l ++ frames) (answer_stored now1 payload1 conn1 question w))
  /\ HandleSubmitAnswer now2 cid2 payload2 w1
     = (w1, Err "already answered this question").
Proof.
  intros Hcheck Hconn2 Hsid Huid Hqid w1.
  destruct (submitAnswer_check_inv _ _ _ _ _ _ Hcheck)
    as (_ & Hconn1 & (session & Hsess & Hactive) & Hnone).
  destruct (submitAnswer_commit_spec now1 cid1 payload1 conn1 question w)
    as (frames & r & E & Hr).
  assert (Hw1 : w1 = set_Wire (fun l => l ++ frames)
                       (answer_stored now1 payload1 conn1 question w)).
  { subst w1. unfold run, HandleSubmitAnswer. rewrite bind_run, Hcheck.
    cbv beta iota. now rewrite E. }
  destruct (answer_stored_tables now1 payload1 conn1 question w)
    as (Hc & Hs & _ & Ha).
  split; [eauto |].
  rewrite (HandleSubmitAnswer_duplicate now2 cid2 payload2 w1 conn2
             (answer_record now1 payload1 conn1 question)).
  - replace (SessionsTable w1) with (SessionsTable w) by (rewrite Hw1; cbn; now rewrite Hs).
    rewrite Hsid, Hsess.
    destruct (decide (Session.Status session = SessionStatusActive)); [reflexivity | contradiction].
  - apply (GetSessionByConnectionID_transfer cid2 w); [| exact Hconn2].
    rewrite Hw1. cbn. now rewrite Hc.
  - rewrite Hw1. cbn [AnswersTable set_Wire]. rewrite Ha, Hsid, Huid, Hqid.
    apply lookup_insert_eq.
Qed.

(** ** Connections without claims (claim C10) *)

Lemma HandleJoinSession_tables (ctx : Context.t) (now : Z) (cid sid nick : string)
    (w : World) (session : Session.t) :
  let userID := match getClaimsFromContext ctx with
                | Some claims => Claims.UserID claims
                | None => "anonymous"
                end in
  let w' := run (HandleJoinSession ctx now cid (JoinSessionPayload.mk sid nick)) w in
  (0 < String.length nick <= 20)%nat ->
  SessionsTable w !! sid = Some session ->
  Session.Status session = SessionStatusLobby ->
  player_count sid w < 2000 ->
  SessionsTable w' = SessionsTable w
  /\ ConnectionsTable w'
     = <[(sid, cid) := Player.mk sid cid userID nick PlayerRolePlayer now (now + 24 * 3600)]>
         (ConnectionsTable w)
  /\ Leaderboards w' = <[sid := <[userID := 0]> (zset w sid)]> (Leaderboards w)
  /\ Nicknames w'
     = <[sid := <[userID := nick]> (default ∅ (Nicknames w !! sid))]> (Nicknames w).
Proof.
  intros userID w' Hnick Hsess Hstatus Hcount. subst w'. unfold run.
  rewrite (HandleJoinSession_accepted ctx now cid sid nick w session) by assumption.
  match goal with
  | |- context [BroadcastToSession ?s ?ev ?w0] =>
      destruct (BroadcastToSession_spec s ev w0) as (frames & r & E & _)
  end.
  rewrite E. now repeat split.
Qed.

(** C10.  A connection whose context carries no claims joins under the
    identity [anonymous].  When two distinct connections join the same
    session that way, both registry entries carry that identity, the two
    joins leave exactly one leaderboard member and one nickname (the second
    join's) behind, and the index resolves both connections to that identity
    (provided neither is also registered under another session).  From then
    on, once one connection of that identity has had an answer to a question
    accepted, the answer is stored under that identity, and a submission for
    the same question from the other connection is rejected as already
    answered and changes nothing, right away and in any later world in which
    that answer is stored and the session is active. *)
Theorem anonymous_connections_share_one_player
    (now1 now2 : Z) (c1 c2 sid nick1 nick2 : string) (w : World)
    (session : Session.t) :
  let noClaims := Context.mk None in
  let w1 := run (HandleJoinSession noClaims now1 c1 (JoinSessionPayload.mk sid nick1)) w in
  let w2 := run (HandleJoinSession noClaims now2 c2 (JoinSessionPayload.mk sid nick2)) w1 in
  let p1 := Player.mk sid c1 "anonymous" nick1 PlayerRolePlayer now1 (now1 + 24 * 3600) in
  let p2 := Player.mk sid c2 "anonymous" nick2 PlayerRolePlayer now2 (now2 + 24 * 3600) in
  c1 <> c2 ->
  (0 < String.length nick1 <= 20)%nat ->
  (0 < String.length nick2 <= 20)%nat ->
  SessionsTable w !! sid = Some session ->
  Session.Status session = SessionStatusLobby ->
  player_count sid w < 2000 ->
  player_count sid w1 < 2000 ->
  (forall sid', sid' <> sid ->
     ConnectionsTable w !! (sid', c1) = None
     /\ ConnectionsTable w !! (sid', c2) = None) ->
  ConnectionsTable w1 !! (sid, c1) = Some p1
  /\ GetSessionByConnectionID c1 w2 = (w2, Ret p1)
  /\ GetSessionByConnectionID c2 w2 = (w2, Ret p2)
  /\ zset w2 sid = <["anonymous" := 0]> (zset w sid)
  /\ default ∅ (Nicknames w2 !! sid)
     = <["anonymous" := nick2]> (default ∅ (Nicknames w !! sid))
  /\ forall (now3 now4 : Z) (payload1 payload2 : SubmitAnswerPayload.t)
       (w3 : World) (conn1 conn2 : Player.t) (question : Question.t),
       submitAnswer_check c1 payload1 w3 = (w3, Ret (conn1, question)) ->
       GetSessionByConnectionID c2 w3 = (w3, Ret conn2) ->
       Player.UserID conn1 = "anonymous" ->
       Player.UserID conn2 = "anonymous" ->
       Player.SessionID conn2 = Player.SessionID conn1 ->
       SubmitAnswerPayload.QuestionID payload2
       = SubmitAnswerPayload.QuestionID payload1 ->
       let w4 := run (HandleSubmitAnswer now3 c1 payload1) w3 in
       AnswersTable w4 !! (Player.SessionID conn1,
                           compositeKey "anonymous"
                             (SubmitAnswerPayload.QuestionID payload1))
       = Some (answer_record now3 payload1 conn1 question)
       /\ HandleSubmitAnswer now4 c2 payload2 w4
          = (w4, Err "already answered this question")
       /\ forall (now5 : Z) (w5 : World) (session5 : Session.t) (existing : Answer.t),
            GetSessionByConnectionID c2 w5 = (w5, Ret conn2) ->
            SessionsTable w5 !! Player.SessionID conn2 = Some session5 ->
            Session.Status session5 = SessionStatusActive ->
            AnswersTable w5 !! (Player.SessionID conn1,
                                compositeKey "anonymous"
                                  (SubmitAnswerPayload.QuestionID payload1))
            = Some existing ->
            HandleSubmitAnswer now5 c2 payload2 w5
            = (w5, Err "already answered this question").
Proof.
  intros noClaims w1 w2 p1 p2 Hne Hn1 Hn2 Hsess Hstatus Hcount Hcount1 Hreg.
  destruct (HandleJoinSession_tables noClaims now1 c1 sid nick1 w session)
    as (Hs1 & Hc1 & Hl1 & Hk1); try assumption.
  fold w1 in Hs1, Hc1, Hl1, Hk1. cbn in Hc1, Hl1, Hk1.
  destruct (HandleJoinSession_tables noClaims now2 c2 sid nick2 w1 session)
    as (Hs2 & Hc2 & Hl2 & Hk2); try assumption; [now rewrite Hs1 |].
  fold w2 in Hs2, Hc2, Hl2, Hk2. cbn in Hc2, Hl2, Hk2.
  assert (Hkey : (sid, c2) <> (sid, c1)) by congruence.
  split; [rewrite Hc1; apply lookup_insert_eq |].
  split; [| split; [| split; [| split]]].
  - apply (GetSessionByConnectionID_unique c1 sid).
    + rewrite Hc2, lookup_insert_ne, Hc1 by exact Hkey. apply lookup_insert_eq.
    + intros sid' Hsid'. rewrite Hc2, lookup_insert_ne, Hc1, lookup_insert_ne by congruence.
      apply (Hreg sid' Hsid').
  - apply (GetSessionByConnectionID_unique c2 sid).
    + rewrite Hc2. apply lookup_insert_eq.
    + intros sid' Hsid'. rewrite Hc2, lookup_insert_ne, Hc1, lookup_insert_ne by congruence.
      apply (Hreg sid' Hsid').
  - unfold zset at 1. rewrite Hl2, lookup_insert_eq. cbn.
    unfold zset at 1. rewrite Hl1, lookup_insert_eq. cbn.
    apply insert_insert_eq.
  - rewrite Hk2, lookup_insert_eq. cbn. rewrite Hk1, lookup_insert_eq. cbn.
    apply insert_insert_eq.
  - intros now3 now4 payload1 payload2 w3 conn1 conn2 question
      Hcheck Hconn2 Hu1 Hu2 Hsid Hqid w4.
    destruct (HandleSubmitAnswer_second now3 now4 c1 c2 payload1 payload2 w3
                conn1 conn2 question) as ([frames Hw4] & Hsecond);
      try assumption; [congruence |].
    fold w4 in Hw4, Hsecond.
    split; [| split; [exact Hsecond |]].
    + rewrite Hw4. cbn [AnswersTable set_Wire].
      destruct (answer_stored_tables now3 payload1 conn1 question w3)
        as (_ & _ & _ & ->).
      rewrite Hu1. apply lookup_insert_eq.
    + intros now5 w5 session5 existing Hconn5 Hsess5 Hactive Hstored.
      rewrite (HandleSubmitAnswer_duplicate now5 c2 payload2 w5 conn2 existing Hconn5).
      * rewrite Hsess5.
        destruct (decide (Session.Status session5 = SessionStatusActive));
          [reflexivity | contradiction].
      * rewrite Hu2, Hsid, Hqid. exact Hstored.
Qed.

Lemma Demo_registry_other_session (sid' cid : string) :
  sid' <> "s1" -> ConnectionsTable Demo.world !! (sid', cid) = None.
Proof.
  intros Hne. unfold Demo.world, Demo.world_with, Demo.registry.
  cbn [ConnectionsTable list_to_map foldr uncurry fst snd].
  rewrite !lookup_insert_ne by congruence. apply lookup_empty.
Qed.

(** C10, witness: in the demonstration world [alice] joins on [c1] and
    [bob] on [c2], neither with claims; the host starts the game, [c1]
    answers the first question, and the answer of [c2] is refused. *)
Lemma anonymous_connections_share_one_player_witness :
  let w2 := run (Demo.join "c2" "bob") (run (Demo.join "c1" "alice") Demo.world) in
  let w4 := run (Demo.answer "c1" "q1" "optA" 5000) (run (Demo.start "ch") w2) in
  zset w2 "s1" = <["anonymous" := 0]> (zset Demo.world "s1")
  /\ Demo.answer "c2" "q1" "optB" 7000 w4 = (w4, Err "already answered this question").
Proof.
  destruct (anonymous_connections_share_one_player 1 1 "c1" "c2" "s1" "alice" "bob"
              Demo.world Demo.lobby)
    as (_ & _ & _ & Hz & _ & Hsub).
  - discriminate.
  - cbn. lia.
  - cbn. lia.
  - vm_compute. reflexivity.
  - reflexivity.
  - vm_compute. reflexivity.
  - vm_compute. reflexivity.
  - intros sid' Hne. split; now apply Demo_registry_other_session.
  - split; [exact Hz |].
    refine (proj1 (proj2 (Hsub 3 3 (SubmitAnswerPayload.mk "q1" "optA" 5000)
             (SubmitAnswerPayload.mk "q1" "optB" 7000) _
             (Player.mk "s1" "c1" "anonymous" "alice" PlayerRolePlayer 1 86401)
             (Player.mk "s1" "c2" "anonymous" "bob" PlayerRolePlayer 1 86401)
             Demo.q1 _ _ _ _ _ _))); vm_compute; reflexivity.
Defined.

(** ** One answer per player and question (claim C2) *)




(** ** Session status transitions (claim C3) *)

(** C3, counterexample.  [UpdateSessionStatus] writes without a
    precondition: applied to the finished demonstration session it makes it
    ACTIVE again and reports no error.  Two [start_game] requests, from the
    two connections of the host, that both read the session in the lobby
    both succeed, and the second one transitions the session a second time:
    it puts the index back from 1 to 0 after a [next_question] and announces
    the start again.  A second [end_game] is accepted as well and broadcasts
    [game_over] again. *)
Lemma status_writes_carry_no_precondition :
  let revived := UpdateSessionStatus 9 "s1" SessionStatusActive 0 in
  let twice := overlapping_starts 2 "ch" (StartGamePayload.mk "s1")
                 3 "ch2" (StartGamePayload.mk "s1") (Demo.next "ch") in
  outcome revived Demo.finished = Ret tt
  /\ (Session.Status <$> SessionsTable (run revived Demo.finished) !! "s1")
     = Some SessionStatusActive
  /\ outcome twice Demo.two_hosts = Ret tt
  /\ (Session.CurrentQuestionIndex
        <$> SessionsTable (run twice Demo.two_hosts) !! "s1") = Some 0
  /\ (WSOutbound.Typ <$> (Broadcasts (run twice Demo.two_hosts)).*2)
     = [WSTypeGameStarted; WSTypeQuestion; WSTypeQuestionEnded; WSTypeQuestion;
        WSTypeGameStarted; WSTypeQuestion]
  /\ outcome (Demo.finish "ch") Demo.finished = Ret tt
  /\ (WSOutbound.Typ <$> (Broadcasts (run (Demo.finish "ch") Demo.finished)).*2)
     = [WSTypeGameStarted; WSTypeQuestion; WSTypeGameOver; WSTypeGameOver].
Proof. vm_compute. repeat split; reflexivity. Qed.

Lemma BroadcastToSession_sessions (sid : string) (ev : WSOutbound.t) (w : World) :
  SessionsTable (run (BroadcastToSession sid ev) w) = SessionsTable w.
Proof.
  destruct (BroadcastToSession_spec sid ev w) as (frames & r & E & _).
  unfold run. now rewrite E.
Qed.

Lemma sendQuestion_sessions (sid : string) (quiz : Quiz.t) (idx : Z) (w : World) :
  SessionsTable (run (sendQuestion sid quiz idx) w) = SessionsTable w.
Proof.
  unfold sendQuestion. destruct (index _ _); [| reflexivity].
  apply BroadcastToSession_sessions.
Qed.

Lemma startGame_commit_sessions (now : Z) (payload : StartGamePayload.t)
    (quiz : Quiz.t) (w : World) :
  SessionsTable (run (startGame_commit now payload quiz) w)
  = SessionsTable
      (UpdateSessionStatus now (StartGamePayload.SessionID payload)
         SessionStatusActive 0 w).1.
Proof.
  unfold startGame_commit, run. cbv zeta. rewrite bind_run.
  unfold UpdateSessionStatus at 1, modify at 1.
  set (w1 := set_SessionsTable _ w).
  rewrite bind_run.
  pose proof (BroadcastToSession_sessions (StartGamePayload.SessionID payload)
                (WSOutbound.mk WSTypeGameStarted
                   (GameStartedPayload (Z.of_nat (length (Quiz.Questions quiz))))) w1)
    as Hb.
  unfold run in Hb.
  destruct (BroadcastToSession _ _ w1) as [w2 [[] | e | p]]; cbn [fst] in *;
    try exact Hb.
  transitivity (SessionsTable w2); [apply sendQuestion_sessions | exact Hb].
Qed.

Lemma endGame_sessions (now : Z) (sid : string) (w : World) :
  SessionsTable (run (endGame now sid) w)
  = SessionsTable (UpdateSessionStatus now sid SessionStatusFinished (-1) w).1.
Proof.
  unfold run. rewrite endGame_run. cbv zeta.
  set (w2 := (UpdateSessionStatus now sid SessionStatusFinished (-1) w).1).
  destruct (dropping_err [] (GetTopN sid 100) w2).2 as [final | e | p];
    try reflexivity.
  rewrite bind_run.
  pose proof (BroadcastToSession_sessions sid
                (WSOutbound.mk WSTypeGameOver (GameOverPayload final)) w2) as Hb.
  unfold run in Hb.
  now destruct (BroadcastToSession _ _ w2) as [w3 [[] | e | p]].
Qed.

(** C3, amended.  A status transition is one unconditional write:
    [UpdateSessionStatus] stores the new status and index whatever the
    stored status is, and cannot fail on it.  Legality is checked only by
    [StartGame], by a read that precedes its write: processed when the
    session is no longer in the lobby it returns "game already started" and
    changes nothing; processed for the host while the session is in the
    lobby it stores ACTIVE with index 0 and the start time.  [EndGame] from
    the host stores FINISHED with index -1 without looking at the status. *)
Theorem status_transitions_validate_by_read :
  (forall (now : Z) (sid : string) (status : SessionStatus) (idx : Z) (w : World),
      let w' := run (UpdateSessionStatus now sid status idx) w in
      outcome (UpdateSessionStatus now sid status idx) w = Ret tt
      /\ (Session.Status <$> SessionsTable w' !! sid) = Some status
      /\ (Session.CurrentQuestionIndex <$> SessionsTable w' !! sid) = Some idx)
  /\ (forall (now : Z) (cid : string) (payload : StartGamePayload.t) (w : World)
             (session : Session.t),
        SessionsTable w !! StartGamePayload.SessionID payload = Some session ->
        Session.Status session <> SessionStatusLobby ->
        HandleStartGame now cid payload w = (w, Err "game already started"))
  /\ (forall (now : Z) (cid : string) (payload : StartGamePayload.t) (w : World)
             (session : Session.t) (conn : Player.t) (quiz : Quiz.t),
        let sid := StartGamePayload.SessionID payload in
        let w' := run (HandleStartGame now cid payload) w in
        SessionsTable w !! sid = Some session ->
        Session.Status session = SessionStatusLobby ->
        GetSessionByConnectionID cid w = (w, Ret conn) ->
        Player.Role conn = PlayerRoleHost ->
        QuizzesTable w !! Session.QuizID session = Some quiz ->
        (Session.Status <$> SessionsTable w' !! sid) = Some SessionStatusActive
        /\ (Session.CurrentQuestionIndex <$> SessionsTable w' !! sid) = Some 0
        /\ (Session.StartedAt <$> SessionsTable w' !! sid) = Some (Some now))
  /\ (forall (now : Z) (cid : string) (payload : EndGamePayload.t) (w : World)
             (conn : Player.t),
        let sid := EndGamePayload.SessionID payload in
        let w' := run (HandleEndGame now cid payload) w in
        GetSessionByConnectionID cid w = (w, Ret conn) ->
        Player.Role conn = PlayerRoleHost ->
        (Session.Status <$> SessionsTable w' !! sid) = Some SessionStatusFinished
        /\ (Session.CurrentQuestionIndex <$> SessionsTable w' !! sid) = Some (-1)).
Proof.
  split; [| split; [| split]].
  - intros now sid status idx w w'. split; [reflexivity |].
    apply (UpdateSessionStatus_lookup now sid status idx w).
  - intros now cid payload w session Hsess Hstatus.
    unfold HandleStartGame. apply bind_err. unfold startGame_check.
    rewrite bind_run. unfold GetSession at 1, gets at 1. rewrite Hsess.
    destruct (decide (Session.Status session <> SessionStatusLobby));
      [reflexivity | contradiction].
  - intros now cid payload w session conn quiz sid w' Hsess Hstatus Hconn Hrole Hquiz.
    assert (Hcheck : startGame_check cid payload w = (w, Ret quiz)).
    { unfold startGame_check.
      rewrite bind_run. unfold GetSession at 1, gets at 1. fold sid. rewrite Hsess.
      destruct (decide (Session.Status session <> SessionStatusLobby)); [contradiction |].
      rewrite (bind_ret _ _ _ _ _ (wrapping_ret _ _ _ _ _ Hconn)).
      destruct (decide (Player.Role conn <> PlayerRoleHost)); [contradiction |].
      rewrite bind_run. unfold GetQuiz at 1, gets at 1. now rewrite Hquiz. }
    assert (Hrun : SessionsTable w'
                   = SessionsTable (UpdateSessionStatus now sid SessionStatusActive 0 w).1).
    { subst w'. unfold run, HandleStartGame. rewrite (bind_ret _ _ _ _ _ Hcheck).
      apply startGame_commit_sessions. }
    rewrite Hrun. cbn. rewrite lookup_insert_eq. now repeat split.
  - intros now cid payload w conn sid w' Hconn Hrole.
    assert (Hrun : SessionsTable w'
                   = SessionsTable (UpdateSessionStatus now sid SessionStatusFinished (-1) w).1).
    { subst w'. unfold run, HandleEndGame.
      rewrite (bind_ret _ _ _ _ _ (wrapping_ret _ _ _ _ _ Hconn)).
      destruct (decide (Player.Role conn <> PlayerRoleHost)); [contradiction |].
      apply endGame_sessions. }
    rewrite Hrun. cbn. rewrite lookup_insert_eq. now repeat split.
Qed.

(** C3, witness: a [start_game] of the host replayed once the demonstration
    game is running, the accepted start itself, and an [end_game] sent to
    the finished session. *)
Lemma status_transitions_validate_by_read_witness :
  Demo.start "ch" Demo.started = (Demo.started, Err "game already started")
  /\ (Session.StartedAt <$> SessionsTable Demo.started !! "s1") = Some (Some 2)
  /\ (Session.Status <$> SessionsTable (run (Demo.finish "ch") Demo.finished) !! "s1")
     = Some SessionStatusFinished.
Proof.
  destruct status_transitions_validate_by_read as (_ & Hreplay & Hstart & Hend).
  split; [| split].
  - apply (Hreplay 2 "ch" (StartGamePayload.mk "s1") Demo.started
             (Session.mk "s1" "123456" "quiz1" "host-user" SessionStatusActive 0
                (Some 2) None 0)).
    + vm_compute. reflexivity.
    + discriminate.
  - apply (Hstart 2 "ch" (StartGamePayload.mk "s1") Demo.world Demo.lobby
             (Player.mk "s1" "ch" "host-user" "" PlayerRoleHost 0 86400) Demo.quiz);
      vm_compute; reflexivity.
  - apply (Hend 5 "ch" (EndGamePayload.mk "s1") Demo.finished
             (Player.mk "s1" "ch" "host-user" "" PlayerRoleHost 0 86400));
      vm_compute; reflexivity.
Defined.
